(** * Animal_Shelter: the CRUD facade of Animal_Shelter_DB_CRUD_Python_Module.py

    The module is a thin layer over the pymongo driver.  The development
    has these parts:

    - [Bson]: the values that travel between the facade and the store
      (Python dicts with string keys, ints, strings, booleans, None),
      Python truthiness, and the BSON comparison order the store sorts by;
    - [Py]: Python exceptions, a state-and-exception monad for the method
      bodies, pymongo cursors, and the driver interface the facade calls
      ([Driver]);
    - [Animal_Shelter]: the class, method by method, over any [Driver];
    - [Mem]: an in-memory MongoDB behind that interface, for the subset of
      filters, updates and pipeline stages the facade can send.  pymongo
      and the server are not part of the module; [Mem] follows their
      documented behaviour;
    - the vocabulary of the statements, then the theory: the order and the
      sort, each request on the in-memory server, and the properties of
      the operations, first for every driver, then on the in-memory one. *)

From Stdlib Require Import ZArith List Ascii String Bool Lia Sorted Permutation OrderedTypeEx.
From stdpp Require Import gmap strings.
Import ListNotations.
Local Open Scope string_scope.
Local Open Scope Z_scope.
Set Warnings "-register-all".

(* ===================================================================== *)
(** ** BSON values and documents *)
(* ===================================================================== *)

Module Bson.

(** A Python value as the driver encodes it.  A dict is an insertion-ordered
    list of (key, value) pairs; [VNull] is Python's [None]. *)
Inductive value : Type :=
| VNull
| VInt (n : Z)
| VStr (s : string)
| VBool (b : bool)
| VDoc (d : list (string * value)).

Definition doc : Type := list (string * value).

(** [d.get(k)]: the first binding of [k]. *)
Fixpoint get (k : string) (d : doc) : option value :=
  match d with
  | [] => None
  | (k', v) :: d' => if String.eqb k k' then Some v else get k d'
  end.

(** The value the store sees for a field path: a missing field reads as null. *)
Definition field (k : string) (d : doc) : value :=
  match get k d with Some v => v | None => VNull end.

(** [d[k] = v] on a dict: overwrite in place, or append a new key. *)
Fixpoint set (k : string) (v : value) (d : doc) : doc :=
  match d with
  | [] => [(k, v)]
  | (k', v') :: d' => if String.eqb k k' then (k', v) :: d' else (k', v') :: set k v d'
  end.

(** [del d[k]] when present. *)
Fixpoint unset (k : string) (d : doc) : doc :=
  match d with
  | [] => []
  | (k', v') :: d' => if String.eqb k k' then unset k d' else (k', v') :: unset k d'
  end.

Definition keys (d : doc) : list string := map fst d.

(** Python truthiness, as used by [if r["_id"]]. *)
Definition truthy (v : value) : bool :=
  match v with
  | VNull => false
  | VInt n => negb (n =? 0)
  | VStr s => negb (String.eqb s "")
  | VBool b => b
  | VDoc d => match d with [] => false | _ => true end
  end.

(** [s.startswith(p)]. *)
Definition startswith (p s : string) : bool := String.prefix p s.

(** A name with a dot in it: to the store, a path into embedded documents. *)
Fixpoint has_dot (s : string) : bool :=
  match s with
  | EmptyString => false
  | String c s' => Ascii.eqb c "."%char || has_dot s'
  end.

(** The name of a top-level field: not empty, no dot, not an operator. *)
Definition field_name (k : string) : bool :=
  negb (String.eqb k "") && negb (has_dot k) && negb (startswith "$" k).

(** The integers BSON can hold: 8 bytes, signed. *)
Definition int64 (n : Z) : bool := (- 2 ^ 63 <=? n) && (n <? 2 ^ 63).

(** Values the driver can encode: every integer in them fits 8 bytes. *)
Fixpoint encodable (v : value) : bool :=
  match v with
  | VInt n => int64 n
  | VDoc d =>
      (fix each (d : list (string * value)) : bool :=
         match d with
         | [] => true
         | (_, v') :: d' => encodable v' && each d'
         end) d
  | _ => true
  end.

(** The BSON comparison order across types:
    null < numbers < strings < objects < booleans. *)
Definition rank (v : value) : Z :=
  match v with
  | VNull => 1
  | VInt _ => 2
  | VStr _ => 3
  | VDoc _ => 4
  | VBool _ => 8
  end.

Definition lex (c : comparison) (k : comparison) : comparison :=
  match c with Eq => k | _ => c end.

(** Comparison of two values.  Values of different types compare by [rank];
    objects compare pair by pair: field type, then field name, then field
    value; a proper prefix is smaller. *)
Fixpoint vcompare (a b : value) {struct a} : comparison :=
  match a, b with
  | VInt x, VInt y => Z.compare x y
  | VStr x, VStr y => String.compare x y
  | VBool x, VBool y => Bool.compare x y
  | VDoc x, VDoc y =>
      (fix pairs (x y : list (string * value)) {struct x} : comparison :=
         match x, y with
         | [], [] => Eq
         | [], _ :: _ => Lt
         | _ :: _, [] => Gt
         | (k1, v1) :: x', (k2, v2) :: y' =>
             lex (Z.compare (rank v1) (rank v2))
               (lex (String.compare k1 k2)
                  (lex (vcompare v1 v2) (pairs x' y')))
         end) x y
  | _, _ => Z.compare (rank a) (rank b)
  end.

Definition veqb (a b : value) : bool :=
  match vcompare a b with Eq => true | _ => false end.

Definition doc_eqb (a b : doc) : bool := veqb (VDoc a) (VDoc b).

(** Structural induction on values that reaches inside nested documents. *)
Section value_induction.
Variable P : value -> Prop.
Hypothesis HNull : P VNull.
Hypothesis HInt : forall n, P (VInt n).
Hypothesis HStr : forall s, P (VStr s).
Hypothesis HBool : forall b, P (VBool b).
Hypothesis HDoc : forall d, Forall (fun kv => P (snd kv)) d -> P (VDoc d).

Fixpoint value_nested_ind (v : value) : P v :=
  match v with
  | VNull => HNull
  | VInt n => HInt n
  | VStr s => HStr s
  | VBool b => HBool b
  | VDoc d =>
      HDoc d
        ((fix each (d : list (string * value)) : Forall (fun kv => P (snd kv)) d :=
            match d with
            | [] => List.Forall_nil _
            | kv :: d' => List.Forall_cons _ kv d' (value_nested_ind (snd kv)) (each d')
            end) d)
  end.
End value_induction.

End Bson.
Export Bson.

(* ===================================================================== *)
(** ** Python exceptions, method bodies, and the driver interface *)
(* ===================================================================== *)

Module Py.

(** The classes under [pymongo.errors.PyMongoError] that the store can raise. *)
Inductive pymongo_error : Type :=
| ServerSelectionTimeoutError (msg : string)
| OperationFailure (msg : string)
| WriteError (msg : string).

(** [f"{e}"] *)
Definition str (e : pymongo_error) : string :=
  match e with
  | ServerSelectionTimeoutError msg => msg
  | OperationFailure msg => msg
  | WriteError msg => msg
  end.

(** Python exceptions.  [Exception] is the plain [Exception(msg)] the facade
    raises itself; [PyMongoError] stands for [errors.PyMongoError] and its
    subclasses, the only ones an [except errors.PyMongoError] clause catches. *)
Inductive exn : Type :=
| PyMongoError (e : pymongo_error)
| ValueError (msg : string)
| TypeError (msg : string)
| KeyError (key : string)
| Exception (msg : string).

Inductive result (A : Type) : Type :=
| Ok (a : A)
| Raise (e : exn).
Arguments Ok {A} a.
Arguments Raise {A} e.

Definition rbind {A B} (r : result A) (k : A -> result B) : result B :=
  match r with Ok a => k a | Raise e => Raise e end.

(** What a method body can touch: the connection of type [S] (the client and
    the server behind it) and the process's standard output. *)
Record world (S : Type) : Type := World { client : S; stdout : list string }.
Arguments World {S} client stdout.
Arguments client {S} w.
Arguments stdout {S} w.

(** A method body: it runs in a world and returns or raises. *)
Definition M (S A : Type) : Type := world S -> result A * world S.

Definition ret {S A} (a : A) : M S A := fun w => (Ok a, w).

Definition raise {S A} (e : exn) : M S A := fun w => (Raise e, w).

Definition bind {S A B} (m : M S A) (k : A -> M S B) : M S B :=
  fun w => match m w with
           | (Ok a, w') => k a w'
           | (Raise e, w') => (Raise e, w')
           end.

(** A value or exception computed without touching the world. *)
Definition lift {S A} (r : result A) : M S A := fun w => (r, w).

(** A call into the driver: it acts on the connection only. *)
Definition call {S A} (op : S -> result A * S) : M S A :=
  fun w => let (r, c) := op (client w) in (r, World c (stdout w)).

Definition print {S} (line : string) : M S unit :=
  fun w => (Ok tt, World (client w) (stdout w ++ [line])).

(** [try: body  except errors.PyMongoError as e: handler(e)] *)
Definition try_except {S A} (body : M S A) (handler : pymongo_error -> M S A) : M S A :=
  fun w => match body w with
           | (Raise (PyMongoError e), w') => handler e w'
           | r => r
           end.

Declare Scope py_scope.
Delimit Scope py_scope with py.
Notation "x <- m ;; k" := (bind m (fun x => k))
  (at level 100, m at next level, right associativity) : py_scope.
Notation "m ;;; k" := (bind m (fun _ => k))
  (at level 100, right associativity) : py_scope.

(** [d[k]] *)
Definition getitem (k : string) (d : doc) : result value :=
  match get k d with Some v => Ok v | None => Raise (KeyError k) end.

(** [v + 1] for a value read back from the store; [bool] is an [int]. *)
Definition add1 (v : value) : result Z :=
  match v with
  | VInt n => Ok (n + 1)
  | VBool b => Ok (Z.b2z b + 1)
  | _ => Raise (TypeError "unsupported operand type(s) for +")
  end.

(** *** pymongo cursors *)

Definition ASCENDING : Z := 1.
Definition DESCENDING : Z := -1.

(** A collection of a database. *)
Definition namespace : Type := string * string.

(** A [pymongo.cursor.Cursor] before it is iterated: [find] and the builder
    methods only record the request; nothing is sent until iteration. *)
Record Cursor : Type := {
  c_ns : namespace;
  c_filter : doc;
  c_projection : option doc;
  c_sort : option (list (string * Z));
  c_skip : Z;
  c_limit : Z
}.

(** [coll.find(filter, projection)]; an absent filter is the empty filter. *)
Definition find (ns : namespace) (filter : option doc) (projection : option doc) : Cursor :=
  {| c_ns := ns;
     c_filter := match filter with Some q => q | None => [] end;
     c_projection := projection;
     c_sort := None;
     c_skip := 0;
     c_limit := 0 |}.

Definition Cursor_sort (ordering : list (string * Z)) (c : Cursor) : Cursor :=
  {| c_ns := c_ns c; c_filter := c_filter c; c_projection := c_projection c;
     c_sort := Some ordering; c_skip := c_skip c; c_limit := c_limit c |}.

Definition Cursor_skip (n : Z) (c : Cursor) : Cursor :=
  {| c_ns := c_ns c; c_filter := c_filter c; c_projection := c_projection c;
     c_sort := c_sort c; c_skip := n; c_limit := c_limit c |}.

Definition Cursor_limit (n : Z) (c : Cursor) : Cursor :=
  {| c_ns := c_ns c; c_filter := c_filter c; c_projection := c_projection c;
     c_sort := c_sort c; c_skip := c_skip c; c_limit := n |}.

Record UpdateResult : Type := { matched_count : Z; modified_count : Z }.
Record DeleteResult : Type := { deleted_count : Z }.

(** *** The driver

    The calls the facade makes into pymongo, over a connection of type [S].
    Each may change the connection's state and may raise. *)
Class Driver (S : Type) : Type := {
  create_index : namespace -> list (string * Z) -> string -> S -> result string * S;
  insert_one : namespace -> doc -> S -> result unit * S;
  (** iterating a cursor to its end: [list(cursor)], [for d in cursor] *)
  cursor_list : Cursor -> S -> result (list doc) * S;
  update_many : namespace -> doc -> doc -> S -> result UpdateResult * S;
  delete_many : namespace -> doc -> S -> result DeleteResult * S;
  (** [list(coll.aggregate(pipeline))] *)
  aggregate : namespace -> list doc -> S -> result (list doc) * S;
  count_documents : namespace -> doc -> S -> result Z * S
}.

End Py.
Export Py.
Local Open Scope py_scope.

(* ===================================================================== *)
(** ** The facade: class Animal_Shelter *)
(* ===================================================================== *)

Module Animal_Shelter.
Section Methods.
Context {S : Type} `{Driver S}.

(** The attributes [__init__] binds: [self.database] and [self.collection],
    by name.  [self.client] is the connection in the world. *)
Record self : Type := Self { database : string; collection : string }.

(** [self.collection] *)
Definition coll (me : self) : namespace := (database me, collection me).

(** [self.database.animals] *)
Definition animals (me : self) : namespace := (database me, "animals").

Definition ensure_indexes (me : self) : M S unit :=
  try_except
    (_ <- call (create_index (coll me)
                  [("animal_type", ASCENDING);
                   ("sex_upon_outcome", ASCENDING);
                   ("age_upon_outcome_in_weeks", ASCENDING);
                   ("breed", ASCENDING)]
                  "idx_rescue_filters") ;;
     _ <- call (create_index (coll me)
                  [("location_lat", ASCENDING); ("location_long", ASCENDING)]
                  "idx_location") ;;
     ret tt)
    (fun e => print ("[WARN] Could not ensure indexes: " ++ str e)).

(** [Animal_Shelter(user, password, host, port, database, collection)]: the
    credentials and the address select the connection, which is the world's
    [client]; the constructor binds the two names and ensures the indexes. *)
Definition init (DB COL : string) : M S self :=
  let me := Self DB COL in
  _ <- ensure_indexes me ;;
  ret me.

Definition getNextRecordNum (me : self) : M S (option Z) :=
  let out := Cursor_limit 1 (Cursor_sort [("rec_num", -1)] (find (animals me) None None)) in
  dicts <- call (cursor_list out) ;;
  match dicts with
  | dict :: _ =>
      n <- lift (rbind (getitem "rec_num" dict) add1) ;;
      ret (Some n)
  | [] => ret None
  end.

Definition create (me : self) (data : option doc) : M S bool :=
  match data with
  | Some data =>
      try_except
        (_ <- call (insert_one (animals me) data) ;;
         ret true)
        (fun e =>
           _ <- print ("An error occurred while inserting the data: " ++ str e) ;;
           ret false)
  | None => raise (Exception "Nothing to save, because data parameter is empty")
  end.

(** The loop that normalizes "1/-1" sort inputs. *)
Definition normalize (sort : list (string * Z)) : list (string * Z) :=
  map (fun '(field, direction) =>
         (field, if direction >=? 0 then ASCENDING else DESCENDING)) sort.

(** The cursor [read] builds before draining it. *)
Definition read_cursor (me : self) (query : doc) (projection : option doc)
    (limit skip : Z) (sort : option (list (string * Z))) : Cursor :=
  let cursor := find (coll me) (Some query) projection in
  let cursor :=
    match sort with
    | Some ((_ :: _) as sort) => Cursor_sort (normalize sort) cursor
    | _ => cursor
    end in
  let cursor :=
    if negb (skip =? 0) && (skip >? 0) then Cursor_skip skip cursor else cursor in
  let cursor :=
    if negb (limit =? 0) && (limit >? 0) then Cursor_limit limit cursor else cursor in
  cursor.

Definition read (me : self) (query : option doc) (projection : option doc)
    (limit skip : Z) (sort : option (list (string * Z))) : M S (list doc) :=
  match query with
  | None => raise (Exception "Query parameter is empty")
  | Some query =>
      try_except
        (call (cursor_list (read_cursor me query projection limit skip sort)))
        (fun e =>
           _ <- print ("An error occurred while reading the data: " ++ str e) ;;
           ret [])
  end.

(** The operation [update] hands to [update_many]. *)
Definition update_operation (update_data : doc) : doc :=
  if negb (existsb (startswith "$") (keys update_data))
  then [("$set", VDoc update_data)]
  else update_data.

Definition update (me : self) (lookup_pair update_data : option doc) : M S Z :=
  match lookup_pair, update_data with
  | Some lookup_pair, Some update_data =>
      try_except
        (result <- call (update_many (coll me) lookup_pair (update_operation update_data)) ;;
         ret (modified_count result))
        (fun e =>
           _ <- print ("An error occurred while updating the data: " ++ str e) ;;
           ret 0)
  | _, _ =>
      raise (Exception
        "Required parameters for update are missing: lookup_pair and/or update_data")
  end.

Definition delete (me : self) (lookup_pair : option doc) : M S Z :=
  match lookup_pair with
  | Some lookup_pair =>
      try_except
        (result <- call (delete_many (coll me) lookup_pair) ;;
         ret (deleted_count result))
        (fun e =>
           _ <- print ("An error occurred while deleting the data: " ++ str e) ;;
           ret 0)
  | None => raise (Exception "Required parameter for delete is missing: lookup_pair")
  end.

(** The aggregation pipeline of [breed_counts]. *)
Definition pipeline (query : doc) (limit : Z) : list doc :=
  [ [("$match", VDoc query)];
    [("$group", VDoc [("_id", VStr "$breed"); ("count", VDoc [("$sum", VInt 1)])])];
    [("$sort", VDoc [("count", VInt (-1))])];
    [("$limit", VInt limit)] ].

(** [[{"breed": r["_id"], "count": r["count"]} for r in results if r["_id"]]] *)
Fixpoint friendly (results : list doc) : result (list doc) :=
  match results with
  | [] => Ok []
  | r :: results' =>
      rbind (getitem "_id" r) (fun cond =>
        if truthy cond
        then rbind (getitem "_id" r) (fun b =>
             rbind (getitem "count" r) (fun c =>
             rbind (friendly results') (fun tl =>
             Ok ([("breed", b); ("count", c)] :: tl))))
        else friendly results')
  end.

Definition breed_counts (me : self) (query : option doc) (limit : Z) : M S (list doc) :=
  let query := match query with None => [] | Some query => query end in
  let pipeline := pipeline query limit in
  try_except
    (results <- call (aggregate (coll me) pipeline) ;;
     lift (friendly results))
    (fun e =>
       _ <- print ("[WARN] Aggregation failed: " ++ str e) ;;
       ret []).

Definition count (me : self) (query : option doc) : M S Z :=
  let query :=
    match query with
    | Some q => if truthy (VDoc q) then q else []
    | None => []
    end in
  try_except
    (call (count_documents (coll me) query))
    (fun e =>
       _ <- print ("[WARN] Count failed: " ++ str e) ;;
       ret 0).

End Methods.
End Animal_Shelter.

(* ===================================================================== *)
(** ** An in-memory MongoDB *)
(* ===================================================================== *)

(** The store behind the driver, for the requests the facade can send:
    filters with equality and the comparison operators on top-level fields,
    [$set]/[$unset] updates, the [$match]/[$group]/[$sort]/[$limit] stages.

    What is outside the model.  A name with a dot is a path into embedded
    documents for the store; here names are atomic, so [valid_query] and
    [valid_projection] admit top-level names only, and the statements about
    sorts and updates take [sortable] and [settable] as hypotheses.
    Integers beyond 8 bytes cannot be encoded and are excluded the same
    way.  The server stores a document as it is given: it does not add an
    [_id], nor does it check one for uniqueness, so the statements about a
    stored document are made for a [create] that returned [True].

    Where MongoDB leaves an order open (natural order, ties of a sort, the
    output of [$group]) the model keeps insertion order: one of the orders
    the store may choose.  The statements about [read] speak of some order
    that is sorted as asked, not of this one. *)
Module Mem.

Record server : Type := Server {
  reachable : bool;
  collections : gmap namespace (list doc);
  indexes : list (namespace * string * list (string * Z))
}.

(** The documents of a collection; a collection that was never written to
    is empty. *)
Definition docs (ns : namespace) (s : server) : list doc :=
  match collections s !! ns with Some ds => ds | None => [] end.

(** *** Filters *)

(** A condition [{"$op": arg, ...}] on a field, as opposed to a literal. *)
Definition operator_doc (c : value) : option doc :=
  match c with
  | VDoc ((k, a) :: ops) => if startswith "$" k then Some ((k, a) :: ops) else None
  | _ => None
  end.

Definition known_op (op : string) : bool :=
  existsb (String.eqb op) ["$eq"; "$ne"; "$gt"; "$gte"; "$lt"; "$lte"; "$exists"].

(** Comparison operators only relate values of the same BSON type. *)
Definition eval_op (k : string) (d : doc) (op : string) (arg : value) : bool :=
  let v := field k d in
  let same := rank v =? rank arg in
  if String.eqb op "$eq" then veqb v arg
  else if String.eqb op "$ne" then negb (veqb v arg)
  else if String.eqb op "$gt" then
    same && match vcompare v arg with Gt => true | _ => false end
  else if String.eqb op "$gte" then
    same && match vcompare v arg with Lt => false | _ => true end
  else if String.eqb op "$lt" then
    same && match vcompare v arg with Lt => true | _ => false end
  else if String.eqb op "$lte" then
    same && match vcompare v arg with Gt => false | _ => true end
  else if String.eqb op "$exists" then
    Bool.eqb (match get k d with Some _ => true | None => false end) (truthy arg)
  else false.

Definition matches_field (d : doc) (k : string) (c : value) : bool :=
  match operator_doc c with
  | Some ops => forallb (fun '(op, arg) => eval_op k d op arg) ops
  | None => veqb (field k d) c
  end.

(** [d] satisfies the filter [q]: every entry of [q] holds. *)
Definition matches (q : doc) (d : doc) : bool :=
  forallb (fun '(k, c) => matches_field d k c) q.

(** Filters this server can evaluate; it rejects the others: every key is
    the name of a top-level field, every operator is known, and every
    integer can be encoded. *)
Definition valid_query (q : doc) : bool :=
  encodable (VDoc q) &&
  forallb (fun '(k, c) =>
             field_name k &&
             match operator_doc c with
             | Some ops => forallb (fun '(op, _) => known_op op) ops
             | None => true
             end) q.

(** *** Sorting *)

Fixpoint doc_compare (ordering : list (string * Z)) (a b : doc) : comparison :=
  match ordering with
  | [] => Eq
  | (f, direction) :: ordering' =>
      let c := vcompare (field f a) (field f b) in
      lex (if direction <? 0 then CompOpp c else c) (doc_compare ordering' a b)
  end.

Definition doc_leb (ordering : list (string * Z)) (a b : doc) : bool :=
  match doc_compare ordering a b with Gt => false | _ => true end.

Fixpoint insert_sorted {A} (leb : A -> A -> bool) (x : A) (l : list A) : list A :=
  match l with
  | [] => [x]
  | y :: l' => if leb x y then x :: y :: l' else y :: insert_sorted leb x l'
  end.

(** A stable sort. *)
Definition sort_by {A} (leb : A -> A -> bool) (l : list A) : list A :=
  fold_right (insert_sorted leb) [] l.

Definition valid_ordering (ordering : list (string * Z)) : bool :=
  match ordering with
  | [] => false
  | _ => forallb (fun '(_, direction) => (direction =? 1) || (direction =? -1)) ordering
  end.

(** *** Projections *)

Definition not_id (k : string) : bool := negb (String.eqb k "_id").

Definition inclusion (p : doc) : bool :=
  match List.filter (fun '(k, _) => not_id k) p with
  | [] => truthy (field "_id" p)
  | others => existsb (fun '(_, v) => truthy v) others
  end.

(** [1]/[0], [True]/[False]: the values of a projection. *)
Definition flag (v : value) : bool :=
  match v with
  | VInt n => int64 n
  | VBool _ => true
  | _ => false
  end.

(** Projections this server can evaluate: flags on [_id] and on top-level
    fields, the latter all set or all cleared. *)
Definition valid_projection (p : doc) : bool :=
  let others := List.filter (fun '(k, _) => not_id k) p in
  forallb (fun '(k, v) => flag v && (field_name k || String.eqb k "_id")) p &&
  (forallb (fun '(_, v) => truthy v) others || forallb (fun '(_, v) => negb (truthy v)) others).

(** An empty projection selects nothing out: the document comes back whole. *)
Definition project (projection : option doc) (d : doc) : doc :=
  match projection with
  | None => d
  | Some p =>
      if inclusion p
      then List.filter (fun '(k, _) =>
                     match get k p with
                     | Some v => truthy v
                     | None => String.eqb k "_id"
                     end) d
      else List.filter (fun '(k, _) =>
                     match get k p with
                     | Some v => truthy v
                     | None => true
                     end) d
  end.

(** *** Queries *)

Definition paginate (skip limit : Z) (ds : list doc) : list doc :=
  let ds := skipn (Z.to_nat skip) ds in
  if limit =? 0 then ds else firstn (Z.to_nat (Z.abs limit)) ds.

(** What the server answers to a [find]: filter, then sort, then skip, then
    limit, then project. *)
Definition select (c : Cursor) (ds : list doc) : list doc :=
  let ds := List.filter (matches (c_filter c)) ds in
  let ds := match c_sort c with
            | Some ordering => sort_by (doc_leb ordering) ds
            | None => ds
            end in
  map (project (c_projection c)) (paginate (c_skip c) (c_limit c) ds).

Definition unreachable {A} (s : server) : result A * server :=
  (Raise (PyMongoError (ServerSelectionTimeoutError "No servers found yet")), s).

Definition failure {A} (msg : string) (s : server) : result A * server :=
  (Raise (PyMongoError (OperationFailure msg)), s).

(** Draining a cursor.  (pymongo refuses a negative skip with a [ValueError];
    it does so when the skip is set, which the facade never does.) *)
Definition mem_cursor_list (c : Cursor) (s : server) : result (list doc) * server :=
  if c_skip c <? 0 then (Raise (ValueError "skip must be >= 0"), s)
  else if negb (reachable s) then unreachable s
  else if negb (valid_query (c_filter c)) then failure "unknown operator" s
  else if negb (match c_sort c with Some o => valid_ordering o | None => true end)
    then failure "bad sort specification" s
  else if negb (match c_projection c with Some p => valid_projection p | None => true end)
    then failure "Cannot do exclusion on field in inclusion projection" s
  else (Ok (select c (docs (c_ns c) s)), s).

Definition mem_count_documents (ns : namespace) (q : doc) (s : server) : result Z * server :=
  if negb (reachable s) then unreachable s
  else if negb (valid_query q) then failure "unknown operator" s
  else (Ok (Z.of_nat (length (List.filter (matches q) (docs ns s)))), s).

(** *** Writes *)

(** An insert the store accepts: the document is appended as it is given.
    (The store also adds an [_id] to a document without one and refuses a
    repeated one; neither is modelled, see the header.) *)
Definition mem_insert_one (ns : namespace) (d : doc) (s : server) : result unit * server :=
  if negb (reachable s) then unreachable s
  else (Ok tt,
        Server (reachable s) (<[ns := (docs ns s ++ [d])%list]> (collections s)) (indexes s)).

Definition mem_delete_many (ns : namespace) (q : doc) (s : server)
    : result DeleteResult * server :=
  if negb (reachable s) then unreachable s
  else if negb (valid_query q) then failure "unknown operator" s
  else (Ok {| deleted_count := Z.of_nat (length (List.filter (matches q) (docs ns s))) |},
        Server (reachable s)
               (alter (List.filter (fun d => negb (matches q d))) ns (collections s))
               (indexes s)).

(** pymongo's own check of an update document, before anything is sent. *)
Definition validate_ok_for_update (u : doc) : result unit :=
  match u with
  | [] => Raise (ValueError "update cannot be empty")
  | (k, _) :: _ =>
      if startswith "$" k then Ok tt
      else Raise (ValueError "update only works with $ operators")
  end.

Definition modifier_ok (op : string) (arg : value) : bool :=
  match arg with
  | VDoc _ => String.eqb op "$set" || String.eqb op "$unset"
  | _ => false
  end.

(** The fields an update document writes to. *)
Definition targets (u : doc) : list string :=
  flat_map (fun '(_, arg) => match arg with VDoc fs => keys fs | _ => [] end) u.

Fixpoint distinct (l : list string) : bool :=
  match l with
  | [] => true
  | x :: l' => negb (existsb (String.eqb x) l') && distinct l'
  end.

(** Update documents this server accepts: known modifiers with document
    arguments, and no field written twice.  (Within the model the fields
    are top-level fields other than [_id]: see [settable].) *)
Definition valid_update (u : doc) : bool :=
  forallb (fun '(op, arg) => modifier_ok op arg) u && distinct (targets u).

Definition apply_modifier (d : doc) (op : string) (arg : value) : doc :=
  match arg with
  | VDoc fs =>
      if String.eqb op "$set" then fold_left (fun d '(k, v) => set k v d) fs d
      else if String.eqb op "$unset" then fold_left (fun d '(k, _) => unset k d) fs d
      else d
  | _ => d
  end.

Definition apply_update (u : doc) (d : doc) : doc :=
  fold_left (fun d '(op, arg) => apply_modifier d op arg) u d.

(** A matched document that the update really changes. *)
Definition modified (q u : doc) (d : doc) : bool :=
  matches q d && negb (doc_eqb (apply_update u d) d).

Definition mem_update_many (ns : namespace) (q u : doc) (s : server)
    : result UpdateResult * server :=
  match validate_ok_for_update u with
  | Raise e => (Raise e, s)
  | Ok _ =>
      if negb (reachable s) then unreachable s
      else if negb (valid_query q) then failure "unknown operator" s
      else if negb (valid_update u)
        then (Raise (PyMongoError (WriteError "Unknown modifier or conflicting update")), s)
      else (Ok {| matched_count := Z.of_nat (length (List.filter (matches q) (docs ns s)));
                  modified_count := Z.of_nat (length (List.filter (modified q u) (docs ns s))) |},
            Server (reachable s)
                   (alter (map (fun d => if matches q d then apply_update u d else d))
                          ns (collections s))
                   (indexes s))
  end.

(** *** Aggregation *)

(** Count one more document under [key]. *)
Fixpoint bump (key : value) (acc : list (value * Z)) : list (value * Z) :=
  match acc with
  | [] => [(key, 1)]
  | (k, n) :: acc' => if veqb k key then (k, n + 1) :: acc' else (k, n) :: bump key acc'
  end.

(** The groups of [ds] by the value of field [f], with their sizes, in order
    of first occurrence.  A missing field groups with null. *)
Definition tally (f : string) (ds : list doc) : list (value * Z) :=
  fold_left (fun acc d => bump (field f d) acc) ds [].

(** A [$group] specification [{"_id": "$f", name: {"$sum": 1}, ...}]: the
    field grouped by and the names of the counters. *)
Definition parse_group (g : doc) : option (string * list string) :=
  match get "_id" g with
  | Some (VStr (String "$"%char f)) =>
      let accs := List.filter (fun '(k, _) => not_id k) g in
      if forallb (fun '(_, a) => doc_eqb [("$sum", VInt 1)]
                                   (match a with VDoc a => a | _ => [] end)) accs
      then Some (f, keys accs)
      else None
  | _ => None
  end.

Definition group_doc (names : list string) (g : value * Z) : doc :=
  ("_id", fst g) :: map (fun name => (name, VInt (snd g))) names.

(** A [$sort] specification [{"f": 1, "g": -1}]. *)
Fixpoint parse_sort (o : doc) : option (list (string * Z)) :=
  match o with
  | [] => Some []
  | (f, VInt direction) :: o' =>
      match parse_sort o' with
      | Some ordering => Some ((f, direction) :: ordering)
      | None => None
      end
  | _ => None
  end.

(** One stage applied to the documents flowing through the pipeline; [None]
    when the server rejects the stage. *)
Definition run_stage (stage : doc) (ds : list doc) : option (list doc) :=
  match stage with
  | [(name, arg)] =>
      if String.eqb name "$match" then
        match arg with
        | VDoc q => if valid_query q then Some (List.filter (matches q) ds) else None
        | _ => None
        end
      else if String.eqb name "$group" then
        match arg with
        | VDoc g =>
            match parse_group g with
            | Some (f, names) => Some (map (group_doc names) (tally f ds))
            | None => None
            end
        | _ => None
        end
      else if String.eqb name "$sort" then
        match arg with
        | VDoc o =>
            match parse_sort o with
            | Some ordering =>
                if valid_ordering ordering
                then Some (sort_by (doc_leb ordering) ds)
                else None
            | None => None
            end
        | _ => None
        end
      else if String.eqb name "$limit" then
        match arg with
        | VInt n => if 0 <? n then Some (firstn (Z.to_nat n) ds) else None
        | _ => None
        end
      else None
  | _ => None
  end.

Fixpoint run_pipeline (stages : list doc) (ds : list doc) : option (list doc) :=
  match stages with
  | [] => Some ds
  | stage :: stages' =>
      match run_stage stage ds with
      | Some ds' => run_pipeline stages' ds'
      | None => None
      end
  end.

Definition mem_aggregate (ns : namespace) (stages : list doc) (s : server)
    : result (list doc) * server :=
  if negb (reachable s) then unreachable s
  else match run_pipeline stages (docs ns s) with
       | Some out => (Ok out, s)
       | None => failure "invalid pipeline" s
       end.

(** *** Indexes *)

Definition index_named (ns : namespace) (name : string)
    (ix : namespace * string * list (string * Z)) : bool :=
  let '(ns', name', _) := ix in
  String.eqb (fst ns) (fst ns') && String.eqb (snd ns) (snd ns') && String.eqb name name'.

Fixpoint same_keys (a b : list (string * Z)) : bool :=
  match a, b with
  | [], [] => true
  | (f, x) :: a', (g, y) :: b' => String.eqb f g && (x =? y) && same_keys a' b'
  | _, _ => false
  end.

(** Declaring an index that exists under the same name with the same keys
    changes nothing. *)
Definition mem_create_index (ns : namespace) (ks : list (string * Z)) (name : string)
    (s : server) : result string * server :=
  if negb (reachable s) then unreachable s
  else if negb (valid_ordering ks) then failure "bad index key pattern" s
  else match List.filter (index_named ns name) (indexes s) with
       | [] => (Ok name,
                Server (reachable s) (collections s) (indexes s ++ [(ns, name, ks)])%list)
       | (_, _, ks') :: _ =>
           if same_keys ks ks' then (Ok name, s)
           else failure "An existing index has the same name as the requested index" s
       end.

#[global] Instance mem_driver : Driver server := {
  create_index := mem_create_index;
  insert_one := mem_insert_one;
  cursor_list := mem_cursor_list;
  update_many := mem_update_many;
  delete_many := mem_delete_many;
  aggregate := mem_aggregate;
  count_documents := mem_count_documents
}.

End Mem.
Export Mem.

(* ===================================================================== *)
(** ** Vocabulary of the statements *)
(* ===================================================================== *)

(** *** The order, pair by pair *)

(** The pairwise comparison of two documents, as [vcompare] runs it. *)
Fixpoint dcompare (x y : doc) : comparison :=
  match x, y with
  | [], [] => Eq
  | [], _ :: _ => Lt
  | _ :: _, [] => Gt
  | (k1, v1) :: x', (k2, v2) :: y' =>
      lex (Z.compare (rank v1) (rank v2))
        (lex (String.compare k1 k2) (lex (vcompare v1 v2) (dcompare x' y')))
  end.

(** One key of an ordering: the comparison of the two fields, reversed for
    a descending key. *)
Definition key_compare (f : string) (direction : Z) (a b : doc) : comparison :=
  let c := vcompare (field f a) (field f b) in
  if direction <? 0 then CompOpp c else c.

(** [a] may come before [b] in a list sorted by [leb]. *)
Definition ordered {A} (leb : A -> A -> bool) (a b : A) : Prop := leb a b = true.

(** *** What the facade sends and prints *)

(** The world after a failed driver call that left the connection in [c]
    and after the handler printed [line]. *)
Definition warned {S} (w : world S) (c : S) (line : string) : world S :=
  World c (stdout w ++ [line])%list.

(** The filter [count] sends: an absent or empty query becomes [{}]. *)
Definition count_query (query : option doc) : doc :=
  match query with Some (kv :: q) => kv :: q | _ => [] end.

(** The filter [breed_counts] matches by: an absent query becomes [{}]. *)
Definition breed_query (query : option doc) : doc :=
  match query with None => [] | Some q => q end.

(** The ordering [getNextRecordNum] asks for. *)
Definition by_rec_num : list (string * Z) := [("rec_num", -1)].

(** *** What the calls return and leave behind *)

(** The documents [read] returns from a collection holding [ds]. *)
Definition read_result (query : doc) (projection : option doc) (limit skip : Z)
    (sort : option (list (string * Z))) (ds : list doc) : list doc :=
  let matched := List.filter (matches query) ds in
  let sorted :=
    match sort with
    | Some (p :: ps) => sort_by (doc_leb (Animal_Shelter.normalize (p :: ps))) matched
    | _ => matched
    end in
  let skipped := if skip <=? 0 then sorted else skipn (Z.to_nat skip) sorted in
  let limited := if limit <=? 0 then skipped else firstn (Z.to_nat limit) skipped in
  map (project projection) limited.

(** The server after [insert_one] of [data] into [ns]. *)
Definition inserted (ns : namespace) (data : doc) (s : server) : server :=
  Server (reachable s) (<[ns := (docs ns s ++ [data])%list]> (collections s)) (indexes s).

(** The server after [update_many] with filter [q] and operation [u] on [ns]. *)
Definition updated (ns : namespace) (q u : doc) (s : server) : server :=
  Server (reachable s)
         (alter (map (fun d => if matches q d then apply_update u d else d)) ns
                (collections s))
         (indexes s).

(** The server after [delete_many] with filter [q] on [ns]. *)
Definition deleted (ns : namespace) (q : doc) (s : server) : server :=
  Server (reachable s)
         (alter (List.filter (fun d => negb (matches q d))) ns (collections s))
         (indexes s).


(** An update operation within the model: it writes top-level fields other
    than [_id], which the store does not let change, and it can be encoded. *)
Definition settable (operation : doc) : bool :=
  encodable (VDoc operation) &&
  forallb (fun k => field_name k && negb (String.eqb k "_id")) (targets operation).



(** *** Counting breeds *)











(** *** Worlds to run the facade in *)

(** A facade bound to the collection [dogs] of the database [aac]. *)
Definition kennel : Animal_Shelter.self := Animal_Shelter.Self "aac" "dogs".

(** A reachable server holding the given collections, and a silent output. *)
Definition serving (cs : list (namespace * list doc)) : world server :=
  World (Server true (list_to_map cs) []) [].

(** A server that cannot be reached. *)
Definition offline : world server := World (Server false ∅ []) [].

Definition animal (breed : string) (rec_num : Z) : doc :=
  [("breed", VStr breed); ("rec_num", VInt rec_num)].

Definition no_servers : pymongo_error := ServerSelectionTimeoutError "No servers found yet".

(** Three records in [animals], the highest numbered 7, one unnumbered. *)
Definition numbered : world server :=
  serving [(("aac", "animals"),
            [animal "Labrador" 3; animal "Poodle" 7; [("breed", VStr "Beagle")]])].

(** The five dogs of the paging example, by age in weeks. *)
Definition aged (name : string) (weeks : Z) : doc :=
  [("name", VStr name); ("age_upon_outcome_in_weeks", VInt weeks)].

Definition five : world server :=
  serving [(("aac", "dogs"),
            [aged "a" 30; aged "b" 52; aged "c" 8; aged "d" 104; aged "e" 16])].

(** Two Labradors and a Poodle. *)
Definition three : world server :=
  serving [(("aac", "dogs"), [animal "Labrador" 1; animal "Labrador" 2; animal "Poodle" 3])].


(** A facade bound to the collection [animals] itself. *)
Definition shelter : Animal_Shelter.self := Animal_Shelter.Self "aac" "animals".

(** The two index declarations of [ensure_indexes]. *)
Definition rescue_keys : list (string * Z) :=
  [("animal_type", ASCENDING); ("sex_upon_outcome", ASCENDING);
   ("age_upon_outcome_in_weeks", ASCENDING); ("breed", ASCENDING)].

Definition location_keys : list (string * Z) :=
  [("location_lat", ASCENDING); ("location_long", ASCENDING)].

(** A document that carries its own [_id]. *)
Definition tagged : doc :=
  [("_id", VInt 41); ("breed", VStr "Beagle"); ("rec_num", VInt 8)].

(** Dogs without a record number. *)
Definition unnumbered : world server :=
  serving [(("aac", "animals"), [[("breed", VStr "Beagle")]; [("breed", VStr "Poodle")]])].

(* ===================================================================== *)
(** ** The comparison order *)
(* ===================================================================== *)

Section Order.

Lemma vcompare_doc x y : vcompare (VDoc x) (VDoc y) = dcompare x y.
Proof. reflexivity. Qed.

Lemma string_compare_refl s : String.compare s s = Eq.
Proof.
  pose proof (String.compare_antisym s s) as E.
  destruct (String.compare s s); simpl in E; congruence.
Qed.

Lemma bool_compare_antisym a b : Bool.compare b a = CompOpp (Bool.compare a b).
Proof. now destruct a, b. Qed.

Lemma lex_opp c k : CompOpp (lex c k) = lex (CompOpp c) (CompOpp k).
Proof. now destruct c. Qed.

Lemma vcompare_antisym a : forall b, vcompare b a = CompOpp (vcompare a b).
Proof.
  induction a as [| n | s | x | d IH] using value_nested_ind; intros [| m | t | y | e];
    try reflexivity.
  - simpl. apply Z.compare_antisym.
  - simpl. rewrite (String.compare_antisym s t). now rewrite CompOpp_involutive.
  - simpl. apply bool_compare_antisym.
  - rewrite !vcompare_doc. revert e.
    induction IH as [| [k1 v1] d Hv _ IHd]; intros [| [k2 v2] e]; try reflexivity.
    simpl in *. rewrite !lex_opp, <- Hv, <- IHd.
    rewrite <- (Z.compare_antisym (rank v1) (rank v2)).
    rewrite (String.compare_antisym k1 k2), CompOpp_involutive.
    reflexivity.
Qed.


Lemma lex_Eq c k : lex c k = Eq -> c = Eq /\ k = Eq.
Proof. destruct c; simpl; intros E; (split; [reflexivity | exact E]) || discriminate. Qed.

Lemma vcompare_eq a : forall b, vcompare a b = Eq -> a = b.
Proof.
  induction a as [| n | s | x | d IH] using value_nested_ind; intros [| m | t | y | e];
    simpl; try discriminate; try reflexivity.
  - intros E. apply Z.compare_eq in E. now subst.
  - intros E. apply String.compare_eq_iff in E. now subst.
  - destruct x, y; simpl; intros; congruence.
  - intros E. f_equal. change (vcompare (VDoc d) (VDoc e) = Eq) in E.
    rewrite vcompare_doc in E. revert e E.
    induction IH as [| [k1 v1] d Hv _ IHd]; intros [| [k2 v2] e]; simpl;
      try discriminate; try reflexivity.
    intros E. apply lex_Eq in E as [_ E]. apply lex_Eq in E as [Ek E].
    apply lex_Eq in E as [Ev E]. apply String.compare_eq_iff in Ek.
    apply Hv in Ev. apply IHd in E. simpl in *. congruence.
Qed.




Lemma doc_compare_antisym o a b : doc_compare o b a = CompOpp (doc_compare o a b).
Proof.
  induction o as [| [f direction] o IH]; [reflexivity |].
  simpl. rewrite lex_opp, IH, (vcompare_antisym (field f a) (field f b)).
  destruct (direction <? 0); now rewrite ?CompOpp_involutive.
Qed.

(** Any two documents are comparable under any ordering. *)
Lemma doc_leb_total o a b : doc_leb o a b = false -> doc_leb o b a = true.
Proof.
  unfold doc_leb. rewrite (doc_compare_antisym o a b).
  now destruct (doc_compare o a b).
Qed.

Lemma doc_leb_refl o a : doc_leb o a a = true.
Proof.
  destruct (doc_leb o a a) eqn:E; [reflexivity |].
  apply doc_leb_total in E as E'. congruence.
Qed.

End Order.

(* ===================================================================== *)
(** ** The two tiers of errors, for every driver *)
(* ===================================================================== *)

Section Contract.
Context {S : Type} `{Driver S}.
Implicit Types (me : Animal_Shelter.self) (w : world S) (c : S) (e : pymongo_error).

Lemma call_eq {A} (op : S -> result A * S) w :
  call op w = (fst (op (client w)), World (snd (op (client w))) (stdout w)).
Proof. unfold call. now destruct (op (client w)). Qed.

(** A [try] block whose body is a single driver call followed by pure code. *)
Lemma try_call_ok {A B} (op : S -> result A * S) (k : A -> result B) handler w a c :
  op (client w) = (Ok a, c) ->
  (forall e, k a <> Raise (PyMongoError e)) ->
  try_except (x <- call op ;; lift (k x)) handler w = (k a, World c (stdout w)).
Proof.
  intros E Hk. unfold try_except, bind, lift. rewrite call_eq, E. simpl.
  destruct (k a) as [b | [e | | | |]] eqn:Ek; try reflexivity.
  now destruct (Hk e).
Qed.

Lemma try_call_caught {A B} (op : S -> result A * S) (k : A -> result B) handler w e c :
  op (client w) = (Raise (PyMongoError e), c) ->
  try_except (x <- call op ;; lift (k x)) handler w = handler e (World c (stdout w)).
Proof.
  intros E. unfold try_except, bind. rewrite call_eq, E. reflexivity.
Qed.

Lemma try_call_escapes {A B} (op : S -> result A * S) (k : A -> result B) handler w x c :
  op (client w) = (Raise x, c) ->
  (forall e, x <> PyMongoError e) ->
  try_except (x <- call op ;; lift (k x)) handler w = (Raise x, World c (stdout w)).
Proof.
  intros E Hx. unfold try_except, bind. rewrite call_eq, E. simpl.
  destruct x as [e | | | |]; try reflexivity. now destruct (Hx e).
Qed.

(** [create], in terms of what [insert_one] on [self.database.animals] does. *)
Lemma create_some me data w :
  Animal_Shelter.create me (Some data) w =
  match insert_one (Animal_Shelter.animals me) data (client w) with
  | (Ok _, c) => (Ok true, World c (stdout w))
  | (Raise (PyMongoError e), c) =>
      (Ok false, warned w c ("An error occurred while inserting the data: " ++ str e))
  | (Raise x, c) => (Raise x, World c (stdout w))
  end.
Proof.
  unfold Animal_Shelter.create, try_except, bind. rewrite call_eq.
  destruct (insert_one _ data (client w)) as [[u | [e | | | |]] c]; reflexivity.
Qed.

Lemma read_some me query projection limit skip sort w :
  Animal_Shelter.read me (Some query) projection limit skip sort w =
  match cursor_list (Animal_Shelter.read_cursor me query projection limit skip sort)
          (client w) with
  | (Ok found, c) => (Ok found, World c (stdout w))
  | (Raise (PyMongoError e), c) =>
      (Ok [], warned w c ("An error occurred while reading the data: " ++ str e))
  | (Raise x, c) => (Raise x, World c (stdout w))
  end.
Proof.
  unfold Animal_Shelter.read, try_except. rewrite call_eq.
  destruct (cursor_list _ (client w)) as [[u | [e | | | |]] c]; reflexivity.
Qed.

Lemma update_some me lookup_pair update_data w :
  Animal_Shelter.update me (Some lookup_pair) (Some update_data) w =
  match update_many (Animal_Shelter.coll me) lookup_pair
          (Animal_Shelter.update_operation update_data) (client w) with
  | (Ok r, c) => (Ok (modified_count r), World c (stdout w))
  | (Raise (PyMongoError e), c) =>
      (Ok 0, warned w c ("An error occurred while updating the data: " ++ str e))
  | (Raise x, c) => (Raise x, World c (stdout w))
  end.
Proof.
  unfold Animal_Shelter.update, try_except, bind. rewrite call_eq.
  destruct (update_many _ lookup_pair _ (client w)) as [[u | [e | | | |]] c]; reflexivity.
Qed.

Lemma delete_some me lookup_pair w :
  Animal_Shelter.delete me (Some lookup_pair) w =
  match delete_many (Animal_Shelter.coll me) lookup_pair (client w) with
  | (Ok r, c) => (Ok (deleted_count r), World c (stdout w))
  | (Raise (PyMongoError e), c) =>
      (Ok 0, warned w c ("An error occurred while deleting the data: " ++ str e))
  | (Raise x, c) => (Raise x, World c (stdout w))
  end.
Proof.
  unfold Animal_Shelter.delete, try_except, bind. rewrite call_eq.
  destruct (delete_many _ lookup_pair (client w)) as [[u | [e | | | |]] c]; reflexivity.
Qed.

Lemma count_eq me query w :
  Animal_Shelter.count me query w =
  match count_documents (Animal_Shelter.coll me) (count_query query) (client w) with
  | (Ok n, c) => (Ok n, World c (stdout w))
  | (Raise (PyMongoError e), c) => (Ok 0, warned w c ("[WARN] Count failed: " ++ str e))
  | (Raise x, c) => (Raise x, World c (stdout w))
  end.
Proof.
  unfold Animal_Shelter.count, try_except.
  replace (match query with Some q => if truthy (VDoc q) then q else [] | None => [] end)
    with (count_query query) by now destruct query as [[|]|].
  rewrite call_eq.
  destruct (count_documents _ _ (client w)) as [[u | [e | | | |]] c]; reflexivity.
Qed.

Lemma breed_counts_eq me query limit w :
  Animal_Shelter.breed_counts me query limit w =
  match aggregate (Animal_Shelter.coll me)
          (Animal_Shelter.pipeline (breed_query query) limit) (client w) with
  | (Ok results, c) =>
      match Animal_Shelter.friendly results with
      | Raise (PyMongoError e) =>
          (Ok [], warned w c ("[WARN] Aggregation failed: " ++ str e))
      | r => (r, World c (stdout w))
      end
  | (Raise (PyMongoError e), c) =>
      (Ok [], warned w c ("[WARN] Aggregation failed: " ++ str e))
  | (Raise x, c) => (Raise x, World c (stdout w))
  end.
Proof.
  unfold Animal_Shelter.breed_counts, try_except, bind, lift. fold (breed_query query).
  rewrite call_eq.
  destruct (aggregate _ _ (client w)) as [[u | [e | | | |]] c]; reflexivity.
Qed.

Lemma getNextRecordNum_eq me w :
  Animal_Shelter.getNextRecordNum me w =
  match cursor_list
          (Cursor_limit 1
             (Cursor_sort [("rec_num", -1)] (find (Animal_Shelter.animals me) None None)))
          (client w) with
  | (Ok [], c) => (Ok None, World c (stdout w))
  | (Ok (dict :: _), c) =>
      (match rbind (getitem "rec_num" dict) add1 with
       | Ok n => Ok (Some n)
       | Raise x => Raise x
       end, World c (stdout w))
  | (Raise x, c) => (Raise x, World c (stdout w))
  end.
Proof.
  unfold Animal_Shelter.getNextRecordNum, bind. rewrite call_eq.
  destruct (cursor_list _ (client w)) as [[[| dict rest] | x] c]; simpl; try reflexivity.
  unfold lift, ret. now destruct (rbind (getitem "rec_num" dict) add1).
Qed.

End Contract.

(** *** Transitivity *)

Section Transitivity.

Lemma lex_trans c12 c23 c13 k12 k23 k13 :
  (c12 = Lt -> c23 = Lt -> c13 = Lt) ->
  (c12 = Eq -> c13 = c23) ->
  (c23 = Eq -> c13 = c12) ->
  (k12 = Lt -> k23 = Lt -> k13 = Lt) ->
  lex c12 k12 = Lt -> lex c23 k23 = Lt -> lex c13 k13 = Lt.
Proof.
  intros HLt HEq1 HEq2 Hk.
  destruct c12, c23; simpl; intros E1 E2; try discriminate.
  - rewrite (HEq1 eq_refl). simpl. auto.
  - now rewrite (HEq1 eq_refl).
  - now rewrite (HEq2 eq_refl).
  - now rewrite (HLt eq_refl eq_refl).
Qed.

Lemma Z_compare_trans (x y z : Z) : (x ?= y) = Lt -> (y ?= z) = Lt -> (x ?= z) = Lt.
Proof. rewrite !Z.compare_lt_iff. lia. Qed.

Lemma string_compare_trans s t u :
  String.compare s t = Lt -> String.compare t u = Lt -> String.compare s u = Lt.
Proof.
  intros E1 E2. apply String_as_OT.cmp_lt.
  apply String_as_OT.lt_trans with t; now apply String_as_OT.cmp_lt.
Qed.

Lemma vcompare_trans a :
  forall b c, vcompare a b = Lt -> vcompare b c = Lt -> vcompare a c = Lt.
Proof.
  induction a as [| n | s | x | d IH] using value_nested_ind;
    intros [| m | t | y | e] [| p | u | z | g];
    try (simpl; intros; (discriminate || reflexivity)).
  - simpl. apply Z_compare_trans.
  - simpl. apply string_compare_trans.
  - destruct x, y, z; simpl; intros; (discriminate || reflexivity).
  - rewrite !vcompare_doc. revert e g.
    induction IH as [| [k1 v1] d Hv _ IHd];
      intros [| [k2 v2] e] [| [k3 v3] g]; simpl; try discriminate; try reflexivity.
    apply lex_trans.
    + apply Z_compare_trans.
    + intros E. apply Z.compare_eq in E. now rewrite E.
    + intros E. apply Z.compare_eq in E. now rewrite E.
    + apply lex_trans.
      * apply string_compare_trans.
      * intros E. apply String.compare_eq_iff in E. now subst.
      * intros E. apply String.compare_eq_iff in E. now subst.
      * apply lex_trans.
        -- apply Hv.
        -- intros E. apply vcompare_eq in E. now subst.
        -- intros E. apply vcompare_eq in E. now subst.
        -- apply IHd.
Qed.

Lemma key_compare_trans f direction a b c :
  key_compare f direction a b = Lt -> key_compare f direction b c = Lt ->
  key_compare f direction a c = Lt.
Proof.
  unfold key_compare. destruct (direction <? 0).
  - rewrite <- !vcompare_antisym. intros E1 E2. now apply vcompare_trans with (field f b).
  - apply vcompare_trans.
Qed.

Lemma key_compare_Eq f direction a b :
  key_compare f direction a b = Eq -> field f a = field f b.
Proof.
  unfold key_compare. intros E. apply vcompare_eq.
  destruct (direction <? 0); [| exact E].
  now destruct (vcompare (field f a) (field f b)).
Qed.

Lemma doc_compare_Eq_l o a b c :
  doc_compare o a b = Eq -> doc_compare o a c = doc_compare o b c.
Proof.
  induction o as [| [f direction] o IH]; [reflexivity |].
  simpl. fold (key_compare f direction a b) (key_compare f direction a c)
    (key_compare f direction b c).
  intros E. apply lex_Eq in E as [Ek E].
  unfold key_compare at 1. rewrite (key_compare_Eq _ _ _ _ Ek).
  fold (key_compare f direction b c). now rewrite (IH E).
Qed.

Lemma doc_compare_Eq_r o a b c :
  doc_compare o b c = Eq -> doc_compare o a c = doc_compare o a b.
Proof.
  intros E. rewrite (doc_compare_antisym o c a), (doc_compare_antisym o b a).
  f_equal. apply doc_compare_Eq_l.
  rewrite doc_compare_antisym, E. reflexivity.
Qed.

Lemma doc_compare_trans o a b c :
  doc_compare o a b = Lt -> doc_compare o b c = Lt -> doc_compare o a c = Lt.
Proof.
  induction o as [| [f direction] o IH]; [discriminate |].
  simpl. fold (key_compare f direction a b) (key_compare f direction a c)
    (key_compare f direction b c).
  apply lex_trans; [apply key_compare_trans | | | exact IH].
  - intros E. unfold key_compare. now rewrite (key_compare_Eq _ _ _ _ E).
  - intros E. unfold key_compare. now rewrite (key_compare_Eq _ _ _ _ E).
Qed.

Lemma doc_leb_trans o a b c :
  doc_leb o a b = true -> doc_leb o b c = true -> doc_leb o a c = true.
Proof.
  unfold doc_leb.
  destruct (doc_compare o a b) eqn:E1; try discriminate;
    destruct (doc_compare o b c) eqn:E2; try discriminate; intros _ _.
  - now rewrite (doc_compare_Eq_l o a b c E1), E2.
  - now rewrite (doc_compare_Eq_l o a b c E1), E2.
  - now rewrite (doc_compare_Eq_r o a b c E2), E1.
  - now rewrite (doc_compare_trans o a b c E1 E2).
Qed.

End Transitivity.

(* ===================================================================== *)
(** ** The stable sort *)
(* ===================================================================== *)

Section Sorting.
Context {A : Type} (leb : A -> A -> bool).

Lemma insert_sorted_perm x l : Permutation (x :: l) (insert_sorted leb x l).
Proof.
  induction l as [| y l IH]; simpl; [reflexivity |].
  destruct (leb x y); [reflexivity |].
  rewrite perm_swap. now constructor.
Qed.

Lemma sort_by_perm l : Permutation l (sort_by leb l).
Proof.
  induction l as [| x l IH]; simpl; [constructor |].
  rewrite <- insert_sorted_perm. now constructor.
Qed.

Lemma sort_by_In x l : In x (sort_by leb l) <-> In x l.
Proof.
  split; apply Permutation_in; [symmetry |]; apply sort_by_perm.
Qed.

Lemma sort_by_length l : length (sort_by leb l) = length l.
Proof. symmetry. apply Permutation_length, sort_by_perm. Qed.

Hypothesis leb_total : forall a b, leb a b = false -> leb b a = true.
Hypothesis leb_trans : forall a b c, leb a b = true -> leb b c = true -> leb a c = true.

Lemma insert_sorted_sorted x l :
  StronglySorted (ordered leb) l -> StronglySorted (ordered leb) (insert_sorted leb x l).
Proof.
  induction 1 as [| y l Hl IH Hy]; simpl.
  - repeat constructor.
  - destruct (leb x y) eqn:E.
    + constructor; [now constructor |].
      constructor; [exact E |].
      eapply List.Forall_impl; [| exact Hy]. intros z Hz. now apply leb_trans with y.
    + constructor; [exact IH |].
      rewrite List.Forall_forall. intros z Hz.
      apply (Permutation_in _ (Permutation_sym (insert_sorted_perm x l))) in Hz.
      destruct Hz as [<- | Hz]; [now apply leb_total |].
      rewrite List.Forall_forall in Hy. now apply Hy.
Qed.

Lemma sort_by_sorted l : StronglySorted (ordered leb) (sort_by leb l).
Proof.
  induction l as [| x l IH]; simpl; [constructor | now apply insert_sorted_sorted].
Qed.

End Sorting.

Lemma StronglySorted_skipn {A} (R : A -> A -> Prop) n l :
  StronglySorted R l -> StronglySorted R (skipn n l).
Proof.
  revert l; induction n as [| n IH]; intros l Hl; [exact Hl |].
  destruct l as [| x l]; [constructor |]. simpl. apply IH.
  now apply StronglySorted_inv in Hl.
Qed.

Lemma StronglySorted_firstn {A} (R : A -> A -> Prop) n l :
  StronglySorted R l -> StronglySorted R (firstn n l).
Proof.
  revert l; induction n as [| n IH]; intros l Hl; [constructor |].
  destruct l as [| x l]; [constructor |]. simpl.
  apply StronglySorted_inv in Hl as [Hl Hx].
  constructor; [now apply IH |].
  rewrite List.Forall_forall in *. intros y Hy. apply Hx.
  revert Hy. rewrite <- (firstn_skipn n l) at 2. rewrite in_app_iff. tauto.
Qed.

Lemma Forall2_map_r {A B} (R : A -> B -> Prop) (f : A -> B) l :
  (forall x, In x l -> R x (f x)) -> Forall2 R l (map f l).
Proof.
  induction l as [| x l IH]; intros HR; simpl; constructor.
  - apply HR. now left.
  - apply IH. intros y Hy. apply HR. now right.
Qed.



(* ===================================================================== *)
(** ** The in-memory server, request by request *)
(* ===================================================================== *)

Section Requests.
Implicit Types (s : server) (me : Animal_Shelter.self) (w : world server).

Lemma matches_nil d : matches [] d = true.
Proof. reflexivity. Qed.

Lemma filter_matches_nil ds : List.filter (matches []) ds = ds.
Proof. induction ds as [| d ds IH]; simpl; [reflexivity | now rewrite IH]. Qed.

Lemma map_project_None ds : map (project None) ds = ds.
Proof. apply map_id. Qed.

(** A well-formed [find] on a reachable server answers with [select]. *)
Lemma cursor_list_ok (c : Cursor) s :
  reachable s = true ->
  0 <= c_skip c ->
  valid_query (c_filter c) = true ->
  match c_sort c with Some o => valid_ordering o | None => true end = true ->
  match c_projection c with Some p => valid_projection p | None => true end = true ->
  cursor_list c s = (Ok (select c (docs (c_ns c) s)), s).
Proof.
  intros Hr Hs Hq Ho Hp. simpl. unfold mem_cursor_list.
  destruct (Z.ltb_spec (c_skip c) 0); [lia |].
  now rewrite Hr, Hq, Ho, Hp.
Qed.

Lemma cursor_list_unreachable (c : Cursor) s :
  reachable s = false -> 0 <= c_skip c ->
  cursor_list c s =
  (Raise (PyMongoError (ServerSelectionTimeoutError "No servers found yet")), s).
Proof.
  intros Hr Hs. simpl. unfold mem_cursor_list.
  destruct (Z.ltb_spec (c_skip c) 0); [lia |]. now rewrite Hr.
Qed.

(** *** The highest record number *)

Lemma getNextRecordNum_select me w :
  reachable (client w) = true ->
  Animal_Shelter.getNextRecordNum me w =
  (match sort_by (doc_leb by_rec_num) (docs (Animal_Shelter.animals me) (client w)) with
   | [] => Ok None
   | dict :: _ =>
       match rbind (getitem "rec_num" dict) add1 with
       | Ok n => Ok (Some n)
       | Raise x => Raise x
       end
   end, w).
Proof.
  intros Hr. rewrite getNextRecordNum_eq.
  rewrite cursor_list_ok by (try exact Hr; simpl; (lia || reflexivity)).
  unfold select, paginate. simpl c_filter. simpl c_sort. simpl c_skip. simpl c_limit.
  simpl c_projection. simpl c_ns.
  rewrite filter_matches_nil, map_project_None.
  fold by_rec_num. destruct w as [s out]. simpl client in *. simpl stdout.
  destruct (sort_by (doc_leb by_rec_num) (docs (Animal_Shelter.animals me) s));
    reflexivity.
Qed.

(** The first document of a descending sort on [rec_num] carries the
    largest number, provided the numbers present are integers. *)
Lemma sort_by_rec_num_head (ds : list doc) (m : Z) :
  (exists d, In d ds /\ get "rec_num" d = Some (VInt m)) ->
  (forall d, In d ds ->
     get "rec_num" d = None \/ get "rec_num" d = Some VNull \/
     exists k, get "rec_num" d = Some (VInt k) /\ k <= m) ->
  exists h rest, sort_by (doc_leb by_rec_num) ds = h :: rest /\
                 get "rec_num" h = Some (VInt m).
Proof.
  intros (dm & Hdm & Em) Hall.
  pose proof (sort_by_sorted (doc_leb by_rec_num) (doc_leb_total by_rec_num)
                (doc_leb_trans by_rec_num) ds) as Hs.
  destruct (sort_by (doc_leb by_rec_num) ds) as [| h rest] eqn:E.
  - apply (sort_by_In (doc_leb by_rec_num)) in Hdm. rewrite E in Hdm. destruct Hdm.
  - exists h, rest. split; [reflexivity |].
    assert (Hh : In h ds) by (apply (sort_by_In (doc_leb by_rec_num)); rewrite E; now left).
    assert (Hle : doc_leb by_rec_num h dm = true).
    { apply (sort_by_In (doc_leb by_rec_num)) in Hdm. rewrite E in Hdm.
      destruct Hdm as [-> | Hdm].
      - apply doc_leb_refl.
      - apply StronglySorted_inv in Hs as [_ Hs].
        rewrite List.Forall_forall in Hs. now apply Hs. }
    unfold doc_leb, by_rec_num in Hle. simpl in Hle. unfold field in Hle. rewrite Em in Hle.
    destruct (Hall h Hh) as [En | [En | (k & Ek & Hk)]]; rewrite ?En, ?Ek in Hle;
      simpl in Hle; try discriminate.
    rewrite Ek. do 2 f_equal.
    destruct (Z.compare_spec k m) as [Ekm | Hlt | Hgt]; [exact Ekm | | lia].
    discriminate Hle.
Qed.

End Requests.

(* ===================================================================== *)
(** ** read: sort, skip, limit *)
(* ===================================================================== *)

Section Read.
Implicit Types (s : server) (me : Animal_Shelter.self) (w : world server).

Lemma normalize_valid p ps : valid_ordering (Animal_Shelter.normalize (p :: ps)) = true.
Proof.
  assert (Hall : forall o,
    forallb (fun '(_, direction) => (direction =? 1) || (direction =? -1))
      (Animal_Shelter.normalize o) = true).
  { induction o as [| [f d] o IH]; [reflexivity |].
    simpl. rewrite IH. now destruct (d >=? 0). }
  specialize (Hall (p :: ps)). destruct p as [f d]. exact Hall.
Qed.

(** What [read] sets on the cursor, argument by argument. *)
Lemma read_cursor_fields me query projection limit skip sort :
  let c := Animal_Shelter.read_cursor me query projection limit skip sort in
  c_ns c = Animal_Shelter.coll me /\
  c_filter c = query /\
  c_projection c = projection /\
  c_sort c = match sort with
             | Some (p :: ps) => Some (Animal_Shelter.normalize (p :: ps))
             | _ => None
             end /\
  c_skip c = (if skip <=? 0 then 0 else skip) /\
  c_limit c = (if limit <=? 0 then 0 else limit).
Proof.
  unfold Animal_Shelter.read_cursor.
  assert (Hpos : forall n, negb (n =? 0) && (n >? 0) = negb (n <=? 0)).
  { intros n. destruct (Z.eqb_spec n 0), (Z.gtb_spec n 0), (Z.leb_spec n 0);
      simpl; (reflexivity || lia). }
  rewrite !Hpos.
  destruct sort as [[| p ps] |], (skip <=? 0), (limit <=? 0); simpl; auto 10.
Qed.

Lemma select_read_cursor me query projection limit skip sort ds :
  select (Animal_Shelter.read_cursor me query projection limit skip sort) ds =
  read_result query projection limit skip sort ds.
Proof.
  destruct (read_cursor_fields me query projection limit skip sort)
    as (_ & Hq & Hp & Ho & Hs & Hl).
  unfold select, paginate, read_result. rewrite Hq, Hp, Ho, Hs, Hl.
  f_equal.
  assert (Es : forall l : list doc,
            skipn (Z.to_nat (if skip <=? 0 then 0 else skip)) l =
            if skip <=? 0 then l else skipn (Z.to_nat skip) l).
  { intros l. now destruct (skip <=? 0). }
  assert (El : forall l : list doc,
            (if (if limit <=? 0 then 0 else limit) =? 0 then l
             else firstn (Z.to_nat (Z.abs (if limit <=? 0 then 0 else limit))) l) =
            if limit <=? 0 then l else firstn (Z.to_nat limit) l).
  { intros l. destruct (Z.leb_spec limit 0); [reflexivity |].
    destruct (Z.eqb_spec limit 0); [lia |]. now rewrite Z.abs_eq by lia. }
  rewrite Es, El. now destruct sort as [[| p ps] |].
Qed.

Lemma read_ok me query projection limit skip sort w :
  reachable (client w) = true ->
  valid_query query = true ->
  match projection with Some p => valid_projection p | None => true end = true ->
  Animal_Shelter.read me (Some query) projection limit skip sort w =
  (Ok (read_result query projection limit skip sort
         (docs (Animal_Shelter.coll me) (client w))), w).
Proof.
  intros Hr Hq Hp. rewrite read_some.
  destruct (read_cursor_fields me query projection limit skip sort)
    as (Hns & Eq' & Ep & Eo & Es & El).
  rewrite cursor_list_ok; try exact Hr.
  - rewrite Hns, select_read_cursor. now destruct w.
  - rewrite Es. destruct (Z.leb_spec skip 0); lia.
  - now rewrite Eq'.
  - rewrite Eo. destruct sort as [[| p ps] |]; try reflexivity. apply normalize_valid.
  - now rewrite Ep.
Qed.

(** The documents before projection are in the order asked for. *)
Lemma read_result_sorted query limit skip p ps ds :
  StronglySorted (ordered (doc_leb (Animal_Shelter.normalize (p :: ps))))
    (read_result query None limit skip (Some (p :: ps)) ds).
Proof.
  unfold read_result. rewrite map_project_None.
  set (sorted := sort_by _ _).
  assert (Hs : StronglySorted (ordered (doc_leb (Animal_Shelter.normalize (p :: ps)))) sorted).
  { apply sort_by_sorted; [apply doc_leb_total | apply doc_leb_trans]. }
  destruct (limit <=? 0), (skip <=? 0);
    auto using StronglySorted_firstn, StronglySorted_skipn.
Qed.

End Read.

(* ===================================================================== *)
(** ** create, update, delete *)
(* ===================================================================== *)

Section Writes.
Implicit Types (s : server) (me : Animal_Shelter.self) (w : world server).

Lemma docs_insert ns ns' ds s :
  docs ns' (Server (reachable s) (<[ns := ds]> (collections s)) (indexes s)) =
  if decide (ns = ns') then ds else docs ns' s.
Proof.
  unfold docs. simpl. rewrite lookup_insert. now destruct (decide (ns = ns')).
Qed.

Lemma docs_alter ns ns' (f : list doc -> list doc) s :
  f [] = [] ->
  docs ns' (Server (reachable s) (alter f ns (collections s)) (indexes s)) =
  if decide (ns = ns') then f (docs ns' s) else docs ns' s.
Proof.
  intros Hf. unfold docs. simpl. rewrite lookup_alter.
  destruct (decide (ns = ns')) as [-> |]; [| reflexivity].
  now destruct (collections s !! ns').
Qed.

Lemma create_ok me data w :
  reachable (client w) = true ->
  Animal_Shelter.create me (Some data) w =
  (Ok true, World (inserted (Animal_Shelter.animals me) data (client w)) (stdout w)).
Proof.
  intros Hr. rewrite create_some. simpl. unfold mem_insert_one, inserted. now rewrite Hr.
Qed.

Lemma animals_ne_coll me :
  Animal_Shelter.collection me <> "animals" ->
  Animal_Shelter.animals me <> Animal_Shelter.coll me.
Proof. unfold Animal_Shelter.animals, Animal_Shelter.coll. congruence. Qed.

(** *** update *)

Lemma startswith_set : startswith "$" "$set" = true.
Proof. reflexivity. Qed.

(** [update_operation], with the test written over all keys. *)
Lemma update_operation_eq u :
  Animal_Shelter.update_operation u =
  if forallb (fun k => negb (startswith "$" k)) (keys u)
  then [("$set", VDoc u)] else u.
Proof.
  unfold Animal_Shelter.update_operation.
  replace (forallb (fun k => negb (startswith "$" k)) (keys u))
    with (negb (existsb (startswith "$") (keys u))); [reflexivity |].
  induction (keys u) as [| k ks IH]; [reflexivity |].
  simpl. rewrite negb_orb. now rewrite IH.
Qed.

Lemma modifier_ok_operator op arg : modifier_ok op arg = true -> startswith "$" op = true.
Proof.
  unfold modifier_ok. destruct arg; try discriminate.
  intros E. apply orb_true_iff in E as [E | E]; apply String.eqb_eq in E; now subst.
Qed.

(** An operation the server accepts passes pymongo's own check, provided it
    is what [update] built. *)
Lemma update_operation_validates u :
  valid_update (Animal_Shelter.update_operation u) = true ->
  validate_ok_for_update (Animal_Shelter.update_operation u) = Ok tt.
Proof.
  unfold Animal_Shelter.update_operation.
  destruct (existsb (startswith "$") (keys u)) eqn:E; simpl; [| reflexivity].
  destruct u as [| [op arg] u]; [discriminate E |].
  unfold valid_update. simpl. intros Hv.
  apply andb_true_iff in Hv as [Hv _]. apply andb_true_iff in Hv as [Hv _].
  now rewrite (modifier_ok_operator _ _ Hv).
Qed.

Lemma update_ok me q u w :
  reachable (client w) = true ->
  valid_query q = true ->
  valid_update (Animal_Shelter.update_operation u) = true ->
  Animal_Shelter.update me (Some q) (Some u) w =
  (Ok (Z.of_nat (length (List.filter (modified q (Animal_Shelter.update_operation u))
                           (docs (Animal_Shelter.coll me) (client w))))),
   World (updated (Animal_Shelter.coll me) q (Animal_Shelter.update_operation u) (client w))
         (stdout w)).
Proof.
  intros Hr Hq Hu. rewrite update_some. simpl. unfold mem_update_many, updated.
  now rewrite (update_operation_validates u Hu), Hr, Hq, Hu.
Qed.

Lemma docs_updated ns q u s ns' :
  docs ns' (updated ns q u s) =
  if decide (ns = ns')
  then map (fun d => if matches q d then apply_update u d else d) (docs ns' s)
  else docs ns' s.
Proof. unfold updated. now rewrite docs_alter. Qed.

Lemma filter_none {A} (f : A -> bool) l :
  (forall x, In x l -> f x = false) -> List.filter f l = [].
Proof.
  induction l as [| x l IH]; intros Hf; [reflexivity |].
  simpl. rewrite (Hf x) by now left. apply IH. intros y Hy. apply Hf. now right.
Qed.

Lemma updated_no_match ns q u s :
  (forall d, In d (docs ns s) -> matches q d = false) ->
  updated ns q u s = s.
Proof.
  intros Hno. unfold updated. destruct s as [r cs ix]. simpl. f_equal.
  apply alter_id. intros ds Hds. unfold docs in Hno. simpl in Hno. rewrite Hds in Hno.
  rewrite <- (map_id ds) at 2. apply map_ext_in. intros d Hd. now rewrite (Hno d Hd).
Qed.

(** *** Field assignment *)

Lemma get_set_eq k v d : get k (set k v d) = Some v.
Proof.
  induction d as [| [k' v'] d IH]; simpl.
  - now rewrite String.eqb_refl.
  - destruct (String.eqb k k') eqn:E; simpl; rewrite E; [reflexivity | exact IH].
Qed.

Lemma get_set_ne k k' v d : k <> k' -> get k (set k' v d) = get k d.
Proof.
  intros Hne. induction d as [| [k'' v''] d IH]; simpl.
  - apply String.eqb_neq in Hne. now rewrite Hne.
  - destruct (String.eqb k' k'') eqn:E; simpl.
    + apply String.eqb_eq in E. subst k''. apply String.eqb_neq in Hne. now rewrite Hne.
    + now rewrite IH.
Qed.

Lemma distinct_cons k ks :
  distinct (k :: ks) = true -> ~ In k ks /\ distinct ks = true.
Proof.
  simpl. intros E. apply andb_true_iff in E as [E1 E2]. split; [| exact E2].
  intros Hin. apply negb_true_iff in E1.
  assert (existsb (String.eqb k) ks = true); [| congruence].
  apply existsb_exists. exists k. split; [exact Hin | apply String.eqb_refl].
Qed.

(** A [$set] of pairwise distinct fields leaves each with its new value. *)
Lemma set_all_get fs : forall d k v,
  distinct (keys fs) = true -> In (k, v) fs ->
  get k (fold_left (fun d '(k, v) => set k v d) fs d) = Some v.
Proof.
  induction fs as [| [k' v'] fs IH]; intros d k v Hd Hin; [destruct Hin |].
  apply distinct_cons in Hd as [Hnot Hd]. simpl.
  destruct Hin as [E | Hin].
  - inversion E; subst k' v'. clear E.
    assert (Hkeep : forall fs d, ~ In k (keys fs) ->
              get k (fold_left (fun d '(k, v) => set k v d) fs d) = get k d).
    { clear. induction fs as [| [k' v'] fs IH]; intros d Hnot; [reflexivity |].
      simpl. rewrite IH by (intros H; apply Hnot; now right).
      apply get_set_ne. intros ->. apply Hnot. now left. }
    rewrite Hkeep by exact Hnot. apply get_set_eq.
  - now apply IH.
Qed.

Lemma apply_set_get u d k v :
  distinct (keys u) = true -> In (k, v) u ->
  get k (apply_update [("$set", VDoc u)] d) = Some v.
Proof. intros Hd Hin. simpl. now apply set_all_get. Qed.

(** *** delete *)

Lemma delete_ok me q w :
  reachable (client w) = true ->
  valid_query q = true ->
  Animal_Shelter.delete me (Some q) w =
  (Ok (Z.of_nat (length (List.filter (matches q) (docs (Animal_Shelter.coll me) (client w))))),
   World (deleted (Animal_Shelter.coll me) q (client w)) (stdout w)).
Proof.
  intros Hr Hq. rewrite delete_some. simpl. unfold mem_delete_many, deleted. now rewrite Hr, Hq.
Qed.

Lemma count_ok me query w :
  reachable (client w) = true ->
  valid_query (count_query query) = true ->
  Animal_Shelter.count me query w =
  (Ok (Z.of_nat (length (List.filter (matches (count_query query))
                           (docs (Animal_Shelter.coll me) (client w))))), w).
Proof.
  intros Hr Hq. rewrite count_eq. simpl. unfold mem_count_documents.
  rewrite Hr, Hq. now destruct w.
Qed.

End Writes.

(* ===================================================================== *)
(** ** breed_counts: the aggregation *)
(* ===================================================================== *)

Section Tally.











End Tally.

Section BreedCounts.
Implicit Types (s : server) (me : Animal_Shelter.self) (w : world server).









(** *** The shape of the result *)









End BreedCounts.

(* ===================================================================== *)
(** ** Contract errors and store failures *)
(* ===================================================================== *)

Section ErrorTiers.
Context {S : Type} `{Driver S}.
Implicit Types (me : Animal_Shelter.self) (w : world S).

(** C4: [read(None)], [update(None, x)], [update(x, None)] and [delete(None)]
    raise the contract error and leave the world -- the connection and the
    output -- exactly as it was, whatever the driver: no call reached it. *)
Theorem absent_argument_raises me w (x : option doc) projection limit skip sort :
  Animal_Shelter.read me None projection limit skip sort w =
    (Raise (Exception "Query parameter is empty"), w) /\
  Animal_Shelter.update me None x w =
    (Raise (Exception
       "Required parameters for update are missing: lookup_pair and/or update_data"), w) /\
  Animal_Shelter.update me x None w =
    (Raise (Exception
       "Required parameters for update are missing: lookup_pair and/or update_data"), w) /\
  Animal_Shelter.delete me None w =
    (Raise (Exception "Required parameter for delete is missing: lookup_pair"), w).
Proof.
  repeat split; try reflexivity. now destruct x.
Qed.

(** C3: when the driver call of an operation raises a [PyMongoError], the
    operation catches it, prints a line and returns its neutral default:
    the empty list for [read] and [breed_counts], 0 for [update], [delete]
    and [count], [False] for [create]. *)
Theorem store_failure_neutral_default me w (e : pymongo_error) (c : S) :
  (forall query projection limit skip sort,
     cursor_list (Animal_Shelter.read_cursor me query projection limit skip sort) (client w)
       = (Raise (PyMongoError e), c) ->
     Animal_Shelter.read me (Some query) projection limit skip sort w =
       (Ok [], warned w c ("An error occurred while reading the data: " ++ str e))) /\
  (forall query limit,
     aggregate (Animal_Shelter.coll me)
       (Animal_Shelter.pipeline (breed_query query) limit) (client w)
       = (Raise (PyMongoError e), c) ->
     Animal_Shelter.breed_counts me query limit w =
       (Ok [], warned w c ("[WARN] Aggregation failed: " ++ str e))) /\
  (forall lookup_pair update_data,
     update_many (Animal_Shelter.coll me) lookup_pair
       (Animal_Shelter.update_operation update_data) (client w)
       = (Raise (PyMongoError e), c) ->
     Animal_Shelter.update me (Some lookup_pair) (Some update_data) w =
       (Ok 0, warned w c ("An error occurred while updating the data: " ++ str e))) /\
  (forall lookup_pair,
     delete_many (Animal_Shelter.coll me) lookup_pair (client w)
       = (Raise (PyMongoError e), c) ->
     Animal_Shelter.delete me (Some lookup_pair) w =
       (Ok 0, warned w c ("An error occurred while deleting the data: " ++ str e))) /\
  (forall query,
     count_documents (Animal_Shelter.coll me) (count_query query) (client w)
       = (Raise (PyMongoError e), c) ->
     Animal_Shelter.count me query w =
       (Ok 0, warned w c ("[WARN] Count failed: " ++ str e))) /\
  (forall data,
     insert_one (Animal_Shelter.animals me) data (client w)
       = (Raise (PyMongoError e), c) ->
     Animal_Shelter.create me (Some data) w =
       (Ok false, warned w c ("An error occurred while inserting the data: " ++ str e))).
Proof.
  repeat split.
  - intros query projection limit skip sort E. now rewrite read_some, E.
  - intros query limit E. now rewrite breed_counts_eq, E.
  - intros q u E. now rewrite update_some, E.
  - intros q E. now rewrite delete_some, E.
  - intros query E. now rewrite count_eq, E.
  - intros data E. now rewrite create_some, E.
Qed.

(** C2, as the code has it: [create(None)] raises the contract error and
    nothing reaches the store.  Any mapping, the empty one included, is
    handed to [insert_one]: [create] returns [True] when the insert returns,
    [False] when it raises a [PyMongoError]. *)
Theorem create_contract me w :
  Animal_Shelter.create me None w =
    (Raise (Exception "Nothing to save, because data parameter is empty"), w) /\
  forall data,
    Animal_Shelter.create me (Some data) w =
    match insert_one (Animal_Shelter.animals me) data (client w) with
    | (Ok _, c) => (Ok true, World c (stdout w))
    | (Raise (PyMongoError e), c) =>
        (Ok false, warned w c ("An error occurred while inserting the data: " ++ str e))
    | (Raise x, c) => (Raise x, World c (stdout w))
    end.
Proof.
  split; [reflexivity |]. intros data. apply create_some.
Qed.

End ErrorTiers.

(** An unreachable server makes every driver call fail. *)
Lemma store_failure_neutral_default_witness :
  Animal_Shelter.read kennel (Some []) None 0 0 None offline =
    (Ok [], warned offline (client offline)
              "An error occurred while reading the data: No servers found yet") /\
  Animal_Shelter.breed_counts kennel None 20 offline =
    (Ok [], warned offline (client offline) "[WARN] Aggregation failed: No servers found yet") /\
  Animal_Shelter.update kennel (Some []) (Some [("breed", VStr "Poodle")]) offline =
    (Ok 0, warned offline (client offline)
             "An error occurred while updating the data: No servers found yet") /\
  Animal_Shelter.delete kennel (Some []) offline =
    (Ok 0, warned offline (client offline)
             "An error occurred while deleting the data: No servers found yet") /\
  Animal_Shelter.count kennel None offline =
    (Ok 0, warned offline (client offline) "[WARN] Count failed: No servers found yet") /\
  Animal_Shelter.create kennel (Some (animal "Poodle" 1)) offline =
    (Ok false, warned offline (client offline)
                 "An error occurred while inserting the data: No servers found yet").
Proof.
  destruct (store_failure_neutral_default kennel offline no_servers (client offline))
    as (Hread & Hbreed & Hupdate & Hdelete & Hcount & Hcreate).
  split; [apply Hread; reflexivity |].
  split; [apply Hbreed; reflexivity |].
  split; [apply Hupdate; reflexivity |].
  split; [apply Hdelete; reflexivity |].
  split; [apply Hcount; reflexivity |].
  apply Hcreate; reflexivity.
Defined.

(** C2, the empty mapping: [create({})] on a reachable server does not raise
    the contract error; it returns [True] and the empty document is in
    [animals] afterwards. *)
Lemma create_empty_mapping_inserts :
  fst (Animal_Shelter.create kennel (Some []) (serving [])) <>
    Raise (Exception "Nothing to save, because data parameter is empty") /\
  fst (Animal_Shelter.create kennel (Some []) (serving [])) = Ok true /\
  docs ("aac", "animals") (client (serving [])) = [] /\
  docs ("aac", "animals")
    (client (snd (Animal_Shelter.create kennel (Some []) (serving [])))) = [[]].
Proof. repeat split; (reflexivity || discriminate). Qed.

(* ===================================================================== *)
(** ** Which collection each operation works on *)
(* ===================================================================== *)

Section Collections.
Implicit Types (me : Animal_Shelter.self) (w : world server).

(** The operations on [self.collection] answer from the bound collection
    alone: two reachable servers that agree on it give the same values. *)
Lemma bound_collection_decides me (s1 s2 : server) out query projection limit skip sort :
  reachable s1 = reachable s2 ->
  docs (Animal_Shelter.coll me) s1 = docs (Animal_Shelter.coll me) s2 ->
  fst (Animal_Shelter.read me query projection limit skip sort (World s1 out)) =
    fst (Animal_Shelter.read me query projection limit skip sort (World s2 out)) /\
  fst (Animal_Shelter.breed_counts me query limit (World s1 out)) =
    fst (Animal_Shelter.breed_counts me query limit (World s2 out)) /\
  fst (Animal_Shelter.count me query (World s1 out)) =
    fst (Animal_Shelter.count me query (World s2 out)) /\
  (forall u, fst (Animal_Shelter.update me query u (World s1 out)) =
             fst (Animal_Shelter.update me query u (World s2 out))) /\
  fst (Animal_Shelter.delete me query (World s1 out)) =
    fst (Animal_Shelter.delete me query (World s2 out)).
Proof.
  intros Hr Hd. repeat split.
  - destruct query as [q |]; [| reflexivity]. rewrite !read_some.
    cbn [cursor_list mem_driver client]. unfold mem_cursor_list, unreachable, failure.
    destruct (read_cursor_fields me q projection limit skip sort) as (-> & _).
    rewrite Hr, Hd.
    repeat match goal with |- context [if ?b then _ else _] => destruct b end; reflexivity.
  - rewrite !breed_counts_eq. cbn [aggregate mem_driver client].
    unfold mem_aggregate, unreachable, failure. rewrite Hr, Hd.
    destruct (reachable s2); cbn [negb]; [| reflexivity].
    destruct (run_pipeline _ _); [| reflexivity].
    now destruct (Animal_Shelter.friendly l) as [? | [| | | |]].
  - rewrite !count_eq. cbn [count_documents mem_driver client].
    unfold mem_count_documents, unreachable, failure. rewrite Hr, Hd.
    repeat match goal with |- context [if ?b then _ else _] => destruct b end; reflexivity.
  - intros u. destruct query as [q |], u as [u |]; try reflexivity. rewrite !update_some.
    cbn [update_many mem_driver client]. unfold mem_update_many, unreachable, failure.
    rewrite Hr, Hd.
    destruct (validate_ok_for_update _) as [? | [| | | |]]; try reflexivity.
    repeat match goal with |- context [if ?b then _ else _] => destruct b end; reflexivity.
  - destruct query as [q |]; [| reflexivity]. rewrite !delete_some.
    cbn [delete_many mem_driver client]. unfold mem_delete_many, unreachable, failure.
    rewrite Hr, Hd.
    repeat match goal with |- context [if ?b then _ else _] => destruct b end; reflexivity.
Qed.

(** [update] and [delete] write to the bound collection only. *)
Lemma bound_collection_written me w lookup_pair update_data ns :
  ns <> Animal_Shelter.coll me ->
  docs ns (client (snd (Animal_Shelter.update me lookup_pair update_data w))) =
    docs ns (client w) /\
  docs ns (client (snd (Animal_Shelter.delete me lookup_pair w))) = docs ns (client w).
Proof.
  intros Hns. split.
  - destruct lookup_pair as [q |], update_data as [u |]; try reflexivity.
    rewrite update_some. cbn [update_many mem_driver]. unfold mem_update_many.
    destruct (validate_ok_for_update _) as [? | [| | | |]]; try reflexivity.
    unfold unreachable, failure.
    repeat match goal with |- context [if ?b then _ else _] => destruct b end;
      try reflexivity.
    cbn [snd client]. rewrite docs_alter by reflexivity.
    destruct (decide (Animal_Shelter.coll me = ns)); [congruence | reflexivity].
  - destruct lookup_pair as [q |]; try reflexivity.
    rewrite delete_some. cbn [delete_many mem_driver]. unfold mem_delete_many.
    unfold unreachable, failure.
    repeat match goal with |- context [if ?b then _ else _] => destruct b end;
      try reflexivity.
    cbn [snd client]. rewrite docs_alter by reflexivity.
    destruct (decide (Animal_Shelter.coll me = ns)); [congruence | reflexivity].
Qed.

(** C1, where the code departs from it: [create] does not insert into the
    collection bound at construction.  On a facade bound to any collection
    other than [animals], a successful [create] appends the document to
    [animals], leaves the bound collection as it was, and a [read] of
    everything through the same facade does not show the new document. *)
Theorem create_ignores_bound_collection me data w :
  reachable (client w) = true ->
  Animal_Shelter.collection me <> "animals" ->
  exists w',
    Animal_Shelter.create me (Some data) w = (Ok true, w') /\
    docs (Animal_Shelter.animals me) (client w') =
      (docs (Animal_Shelter.animals me) (client w) ++ [data])%list /\
    docs (Animal_Shelter.coll me) (client w') = docs (Animal_Shelter.coll me) (client w) /\
    Animal_Shelter.read me (Some []) None 0 0 None w' =
      (Ok (docs (Animal_Shelter.coll me) (client w)), w').
Proof.
  intros Hr Hne. eexists. split; [now apply create_ok |].
  assert (Hcoll : docs (Animal_Shelter.coll me)
                    (inserted (Animal_Shelter.animals me) data (client w)) =
                  docs (Animal_Shelter.coll me) (client w)).
  { unfold inserted. rewrite docs_insert.
    destruct (decide (Animal_Shelter.animals me = Animal_Shelter.coll me)) as [E |];
      [now apply animals_ne_coll in E | reflexivity]. }
  repeat split.
  - cbn [client]. unfold inserted. rewrite docs_insert.
    now destruct (decide (Animal_Shelter.animals me = Animal_Shelter.animals me)).
  - exact Hcoll.
  - rewrite read_ok by (try reflexivity; cbn [client]; unfold inserted; exact Hr).
    cbn [client]. rewrite Hcoll. unfold read_result.
    now rewrite filter_matches_nil, map_project_None.
Qed.

End Collections.

Lemma create_ignores_bound_collection_witness :
  reachable (client (serving [])) = true /\
  Animal_Shelter.collection kennel <> "animals" /\
  exists w',
    Animal_Shelter.create kennel (Some (animal "Poodle" 1)) (serving []) = (Ok true, w') /\
    docs ("aac", "animals") (client w') = [animal "Poodle" 1] /\
    docs ("aac", "dogs") (client w') = [] /\
    Animal_Shelter.read kennel (Some []) None 0 0 None w' = (Ok [], w').
Proof.
  split; [reflexivity |]. split; [discriminate |].
  apply (create_ignores_bound_collection kennel (animal "Poodle" 1) (serving []));
    [reflexivity | discriminate].
Defined.

(* ===================================================================== *)
(** ** The operations on a reachable server *)
(* ===================================================================== *)

Section Results.
Implicit Types (me : Animal_Shelter.self) (w : world server).

(** C5: on a reachable server [getNextRecordNum] returns [None] when the
    [animals] collection is empty, and [m + 1] when [m] is the largest
    [rec_num] in it -- some document carries [m], and every document
    carries an integer no larger than [m], or none. *)
Theorem getNextRecordNum_spec me w :
  reachable (client w) = true ->
  let ds := docs (Animal_Shelter.animals me) (client w) in
  (ds = [] -> Animal_Shelter.getNextRecordNum me w = (Ok None, w)) /\
  (forall m,
     (exists d, In d ds /\ get "rec_num" d = Some (VInt m)) ->
     (forall d, In d ds ->
        get "rec_num" d = None \/ get "rec_num" d = Some VNull \/
        exists k, get "rec_num" d = Some (VInt k) /\ k <= m) ->
     Animal_Shelter.getNextRecordNum me w = (Ok (Some (m + 1)), w)).
Proof.
  intros Hr ds. split.
  - intros E. rewrite getNextRecordNum_select by exact Hr. fold ds. now rewrite E.
  - intros m Hmax Hall. rewrite getNextRecordNum_select by exact Hr. fold ds.
    destruct (sort_by_rec_num_head ds m Hmax Hall) as (h & rest & -> & Eh).
    unfold getitem. now rewrite Eh.
Qed.






End Results.

Section Updates.
Implicit Types (me : Animal_Shelter.self) (w : world server).

(** C6: for every call with both arguments present, [update] hands
    [update_many] the bound collection, the filter, and
    [{"$set": update_data}] when no top-level key of [update_data] starts
    with ["$"], [update_data] itself otherwise, and returns the modified
    count it is given.  On a reachable server that accepts the filter and
    that operation -- an operation on top-level fields other than [_id] --
    it is applied to every document of the bound collection that matches
    the filter and to no other document; the call returns the number of
    matched documents that the operation changed, which is 0 -- with
    nothing changed -- when no document matches.  In the [$set] case every
    matched document ends with each field of [update_data] at the value
    given. *)
Theorem update_spec me lookup_pair update_data w :
  let operation :=
    if forallb (fun k => negb (startswith "$" k)) (keys update_data)
    then [("$set", VDoc update_data)]
    else update_data in
  let ds := docs (Animal_Shelter.coll me) (client w) in
  Animal_Shelter.update me (Some lookup_pair) (Some update_data) w =
    match update_many (Animal_Shelter.coll me) lookup_pair operation (client w) with
    | (Ok r, c) => (Ok (modified_count r), World c (stdout w))
    | (Raise (PyMongoError e), c) =>
        (Ok 0, warned w c ("An error occurred while updating the data: " ++ str e))
    | (Raise x, c) => (Raise x, World c (stdout w))
    end /\
  (reachable (client w) = true ->
   valid_query lookup_pair = true ->
   valid_update operation = true ->
   settable operation = true ->
   exists w',
     Animal_Shelter.update me (Some lookup_pair) (Some update_data) w =
       (Ok (Z.of_nat (length (List.filter
              (fun d => matches lookup_pair d && negb (doc_eqb (apply_update operation d) d))
              ds))), w') /\
     Forall2 (fun d d' =>
                (matches lookup_pair d = false -> d' = d) /\
                (matches lookup_pair d = true ->
                 forall k, get k d' = get k (apply_update operation d)))
       ds (docs (Animal_Shelter.coll me) (client w')) /\
     (forall ns, ns <> Animal_Shelter.coll me -> docs ns (client w') = docs ns (client w)) /\
     ((forall d, In d ds -> matches lookup_pair d = false) ->
      Animal_Shelter.update me (Some lookup_pair) (Some update_data) w = (Ok 0, w)) /\
     (forallb (fun k => negb (startswith "$" k)) (keys update_data) = true ->
      forall d k v, In d ds -> matches lookup_pair d = true -> In (k, v) update_data ->
        get k (apply_update operation d) = Some v)).
Proof.
  intros operation ds.
  assert (Eop : Animal_Shelter.update_operation update_data = operation)
    by apply update_operation_eq.
  split; [rewrite update_some, Eop; reflexivity |].
  intros Hr Hq Hu _. rewrite <- Eop in Hu.
  eexists. split; [rewrite update_ok by assumption; rewrite Eop; reflexivity |].
  cbn [client]. rewrite Eop in Hu. repeat split.
  - rewrite docs_updated.
    destruct (decide (Animal_Shelter.coll me = Animal_Shelter.coll me)); [| congruence].
    apply Forall2_map_r. intros d _. fold ds.
    destruct (matches lookup_pair d); split; congruence.
  - intros ns Hns. rewrite docs_updated.
    destruct (decide (Animal_Shelter.coll me = ns)); [congruence | reflexivity].
  - intros Hno. rewrite update_ok by (try assumption; now rewrite Eop).
    rewrite Eop, updated_no_match by exact Hno.
    rewrite filter_none; [now destruct w |].
    intros d Hd. unfold modified. fold ds in Hno. now rewrite (Hno d Hd).
  - intros Hplain d k v _ _ Hin. unfold operation in *. rewrite Hplain in *.
    apply apply_set_get; [| exact Hin].
    unfold valid_update in Hu. apply andb_true_iff in Hu as [_ Hu].
    simpl in Hu. now rewrite app_nil_r in Hu.
Qed.

End Updates.

Section Breeds.
Implicit Types (me : Animal_Shelter.self) (w : world server).









End Breeds.

(* ===================================================================== *)
(** ** The operations at work *)
(* ===================================================================== *)

Lemma getNextRecordNum_spec_witness :
  reachable (client numbered) = true /\
  Animal_Shelter.getNextRecordNum kennel (serving []) = (Ok None, serving []) /\
  Animal_Shelter.getNextRecordNum kennel numbered = (Ok (Some 8), numbered).
Proof.
  split; [reflexivity |]. split.
  - apply (proj1 (getNextRecordNum_spec kennel (serving []) eq_refl)). reflexivity.
  - apply (proj2 (getNextRecordNum_spec kennel numbered eq_refl) 7).
    + exists (animal "Poodle" 7). split; [| reflexivity].
      vm_compute. right. left. reflexivity.
    + intros d Hd. vm_compute in Hd.
      destruct Hd as [<- | [<- | [<- | []]]].
      * right. right. exists 3. split; [reflexivity | lia].
      * right. right. exists 7. split; [reflexivity | lia].
      * left. reflexivity.
Defined.


(** The second and third oldest of the five, and all five with a skip and a
    limit below zero. *)
Example read_five_by_age :
  Animal_Shelter.read kennel (Some []) None 2 1
    (Some [("age_upon_outcome_in_weeks", -1)]) five =
  (Ok [aged "b" 52; aged "a" 30], five) /\
  Animal_Shelter.read kennel (Some []) None (-3) (-1)
    (Some [("age_upon_outcome_in_weeks", -1)]) five =
  (Ok [aged "d" 104; aged "b" 52; aged "a" 30; aged "e" 16; aged "c" 8], five).
Proof. split; reflexivity. Qed.


Lemma update_spec_witness :
  reachable (client three) = true /\
  valid_query [("breed", VStr "Labrador")] = true /\
  valid_update [("$set", VDoc [("rec_num", VInt 2)])] = true /\
  settable [("$set", VDoc [("rec_num", VInt 2)])] = true /\
  exists w',
    Animal_Shelter.update kennel (Some [("breed", VStr "Labrador")])
      (Some [("rec_num", VInt 2)]) three = (Ok 1, w') /\
    length (docs ("aac", "dogs") (client w')) = 3%nat.
Proof.
  split; [reflexivity |]. split; [reflexivity |]. split; [reflexivity |].
  split; [reflexivity |].
  destruct (proj2 (update_spec kennel [("breed", VStr "Labrador")] [("rec_num", VInt 2)] three)
              eq_refl eq_refl eq_refl eq_refl)
    as (w' & Hupdate & Hdocs & _).
  exists w'. split; [exact Hupdate |].
  apply Forall2_length in Hdocs. symmetry. exact Hdocs.
Defined.




(** The breed counts of two Labradors and a Poodle. *)
Example breed_counts_labrador_poodle :
  Animal_Shelter.breed_counts kennel (Some []) 20 three =
  (Ok [[("breed", VStr "Labrador"); ("count", VInt 2)];
       [("breed", VStr "Poodle"); ("count", VInt 1)]], three).
Proof. reflexivity. Qed.

(** An update document whose first key is not an operator while a later one
    is: it goes to the driver as it is, and the driver's own [ValueError],
    raised before anything is sent, is not a [PyMongoError]. *)
Example update_operator_not_first :
  Animal_Shelter.update kennel (Some [])
    (Some [("rec_num", VInt 9); ("$set", VDoc [("breed", VStr "Beagle")])]) three =
  (Raise (ValueError "update only works with $ operators"), three).
Proof. reflexivity. Qed.

(** An update that matches nothing returns 0. *)
Example update_matches_nothing :
  Animal_Shelter.update kennel (Some [("breed", VStr "Beagle")])
    (Some [("rec_num", VInt 9)]) three = (Ok 0, three).
Proof. reflexivity. Qed.

(* ===================================================================== *)
(** ** Construction and the indexes *)
(* ===================================================================== *)

Section Construction.
Context {S : Type} `{Driver S}.
Implicit Types (me : Animal_Shelter.self) (w : world S).

Lemma ensure_indexes_eq me w :
  Animal_Shelter.ensure_indexes me w =
  match create_index (Animal_Shelter.coll me) rescue_keys "idx_rescue_filters" (client w) with
  | (Ok _, c1) =>
      match create_index (Animal_Shelter.coll me) location_keys "idx_location" c1 with
      | (Ok _, c2) => (Ok tt, World c2 (stdout w))
      | (Raise (PyMongoError e), c2) =>
          (Ok tt, warned w c2 ("[WARN] Could not ensure indexes: " ++ str e))
      | (Raise x, c2) => (Raise x, World c2 (stdout w))
      end
  | (Raise (PyMongoError e), c1) =>
      (Ok tt, warned w c1 ("[WARN] Could not ensure indexes: " ++ str e))
  | (Raise x, c1) => (Raise x, World c1 (stdout w))
  end.
Proof.
  unfold Animal_Shelter.ensure_indexes, try_except, bind. rewrite call_eq.
  fold rescue_keys location_keys.
  destruct (create_index _ rescue_keys _ (client w)) as [[n1 | [e | | | |]] c1];
    try reflexivity.
  cbn [fst snd]. rewrite call_eq. cbn [client stdout].
  destruct (create_index _ location_keys _ c1) as [[n2 | [e | | | |]] c2]; reflexivity.
Qed.

Lemma init_eq DB COL w :
  Animal_Shelter.init DB COL w =
  match Animal_Shelter.ensure_indexes (Animal_Shelter.Self DB COL) w with
  | (Ok _, w') => (Ok (Animal_Shelter.Self DB COL), w')
  | (Raise x, w') => (Raise x, w')
  end.
Proof. reflexivity. Qed.

(** X1: a store failure while the indexes are declared is not fatal, for
    any driver.  When either [create_index] call raises a [PyMongoError],
    [ensure_indexes] prints one warning and returns, and the constructor
    still returns the facade bound to the names it was given; when the
    first call fails the second is not attempted. *)
Theorem index_failure_is_not_fatal DB COL w (e : pymongo_error) :
  let me := Animal_Shelter.Self DB COL in
  let warning := "[WARN] Could not ensure indexes: " ++ str e in
  (forall c,
     create_index (DB, COL) rescue_keys "idx_rescue_filters" (client w)
       = (Raise (PyMongoError e), c) ->
     Animal_Shelter.ensure_indexes me w = (Ok tt, warned w c warning) /\
     Animal_Shelter.init DB COL w = (Ok me, warned w c warning)) /\
  (forall name c1 c2,
     create_index (DB, COL) rescue_keys "idx_rescue_filters" (client w) = (Ok name, c1) ->
     create_index (DB, COL) location_keys "idx_location" c1 = (Raise (PyMongoError e), c2) ->
     Animal_Shelter.ensure_indexes me w = (Ok tt, warned w c2 warning) /\
     Animal_Shelter.init DB COL w = (Ok me, warned w c2 warning)).
Proof.
  intros me warning. subst me warning. split.
  - intros c E. rewrite init_eq, !ensure_indexes_eq.
    change (Animal_Shelter.coll (Animal_Shelter.Self DB COL)) with (DB, COL).
    now rewrite E.
  - intros name c1 c2 E1 E2. rewrite init_eq, !ensure_indexes_eq.
    change (Animal_Shelter.coll (Animal_Shelter.Self DB COL)) with (DB, COL).
    now rewrite E1, E2.
Qed.

End Construction.

Lemma index_failure_is_not_fatal_witness :
  Animal_Shelter.init "aac" "dogs" offline =
  (Ok kennel, warned offline (client offline)
                "[WARN] Could not ensure indexes: No servers found yet").
Proof.
  destruct (index_failure_is_not_fatal "aac" "dogs" offline no_servers) as [Hfirst _].
  destruct (Hfirst (client offline)) as [_ Hinit]; [reflexivity |]. exact Hinit.
Defined.

Section Indexes.
Implicit Types (s : server) (me : Animal_Shelter.self) (w : world server).

Lemma same_keys_refl ks : same_keys ks ks = true.
Proof.
  induction ks as [| [f d] ks IH]; [reflexivity |].
  simpl. now rewrite String.eqb_refl, Z.eqb_refl, IH.
Qed.

Lemma index_named_same ns name ks : index_named ns name (ns, name, ks) = true.
Proof. unfold index_named. now rewrite !String.eqb_refl. Qed.

Lemma index_named_other ns name name' ks :
  name <> name' -> index_named ns name (ns, name', ks) = false.
Proof.
  intros Hne. unfold index_named. apply String.eqb_neq in Hne. rewrite Hne.
  now rewrite andb_false_r.
Qed.

Lemma valid_rescue_keys : valid_ordering rescue_keys = true.
Proof. reflexivity. Qed.

Lemma valid_location_keys : valid_ordering location_keys = true.
Proof. reflexivity. Qed.

Lemma rescue_not_location ns ks :
  index_named ns "idx_rescue_filters" (ns, "idx_location", ks) = false.
Proof. now apply index_named_other. Qed.

Lemma location_not_rescue ns ks :
  index_named ns "idx_location" (ns, "idx_rescue_filters", ks) = false.
Proof. now apply index_named_other. Qed.

Ltac index_cases :=
  repeat match goal with
    | |- context [List.filter ?f (?a ++ ?b)%list] => rewrite (List.filter_app f a b)
    | H : List.filter ?f ?l = _ |- context [List.filter ?f ?l] => rewrite H
    | |- context [List.filter _ [_]] => cbn [List.filter]
    | |- context [index_named ?ns ?n (?ns, ?n, ?k)] => rewrite (index_named_same ns n k)
    | |- context [index_named ?ns "idx_rescue_filters" (?ns, "idx_location", ?k)] =>
        rewrite (rescue_not_location ns k)
    | |- context [index_named ?ns "idx_location" (?ns, "idx_rescue_filters", ?k)] =>
        rewrite (location_not_rescue ns k)
    | |- context [same_keys ?k ?k] => rewrite (same_keys_refl k)
    | H : same_keys ?a ?b = _ |- context [same_keys ?a ?b] => rewrite H
    | |- context [([] ++ _)%list] => cbn [app]
    | |- context [(_ ++ [])%list] => rewrite app_nil_r
    end.

(** X2: [ensure_indexes] is safe to call repeatedly.  On the in-memory
    server a second call changes nothing on the server, whatever the first
    call met (an unreachable server, an index of the same name with other
    keys, or no obstacle); it returns normally; and no call touches the
    documents or the reachability of the server. *)
Theorem ensure_indexes_again me w :
  let w1 := snd (Animal_Shelter.ensure_indexes me w) in
  client (snd (Animal_Shelter.ensure_indexes me w1)) = client w1 /\
  fst (Animal_Shelter.ensure_indexes me w1) = Ok tt /\
  collections (client w1) = collections (client w) /\
  reachable (client w1) = reachable (client w).
Proof.
  cbv zeta. rewrite !ensure_indexes_eq. cbn [create_index mem_driver].
  unfold mem_create_index, unreachable, failure.
  destruct w as [[r cs ix] out]. cbn [client reachable collections indexes stdout].
  rewrite valid_rescue_keys, valid_location_keys. cbn [negb].
  destruct r; cbn [negb fst snd client reachable indexes collections stdout warned];
    [| repeat split].
  destruct (List.filter (index_named (Animal_Shelter.coll me) "idx_rescue_filters") ix)
    as [| [[ns1 n1] k1] rest1] eqn:E1;
    [| destruct (same_keys rescue_keys k1) eqn:Ek1];
    cbn [negb fst snd client reachable indexes collections stdout warned];
    index_cases;
    try (destruct (List.filter (index_named (Animal_Shelter.coll me) "idx_location") ix)
           as [| [[ns2 n2] k2] rest2] eqn:E2;
         [| destruct (same_keys location_keys k2) eqn:Ek2]);
    cbn [negb fst snd client reachable indexes collections stdout warned];
    index_cases;
    cbn [negb fst snd client reachable indexes collections stdout warned];
    index_cases;
    cbn [negb fst snd client reachable indexes collections stdout warned];
    repeat split.
Qed.

End Indexes.

(* ===================================================================== *)
(** ** getNextRecordNum: failures, and numbering after create *)
(* ===================================================================== *)

Section RecordNumbers.
Implicit Types (s : server) (me : Animal_Shelter.self) (w : world server).

(** X3: [getNextRecordNum] has no handler.  On the in-memory server, when
    the server is unreachable the driver's [PyMongoError] reaches the
    caller and nothing is printed; and when the collection is not empty but
    no document carries a [rec_num], the call raises [KeyError]. *)
Theorem getNextRecordNum_failures me w :
  (reachable (client w) = false ->
   Animal_Shelter.getNextRecordNum me w =
     (Raise (PyMongoError (ServerSelectionTimeoutError "No servers found yet")), w)) /\
  (reachable (client w) = true ->
   docs (Animal_Shelter.animals me) (client w) <> [] ->
   (forall d, In d (docs (Animal_Shelter.animals me) (client w)) -> get "rec_num" d = None) ->
   Animal_Shelter.getNextRecordNum me w = (Raise (KeyError "rec_num"), w)).
Proof.
  split.
  - intros Hr. rewrite getNextRecordNum_eq.
    rewrite cursor_list_unreachable by (exact Hr || (simpl; lia)). now destruct w.
  - intros Hr Hne Hall. rewrite getNextRecordNum_select by exact Hr.
    destruct (sort_by (doc_leb by_rec_num) (docs (Animal_Shelter.animals me) (client w)))
      as [| h rest] eqn:E.
    + exfalso. apply Hne.
      pose proof (sort_by_length (doc_leb by_rec_num)
                    (docs (Animal_Shelter.animals me) (client w))) as Hlen.
      rewrite E in Hlen.
      now destruct (docs (Animal_Shelter.animals me) (client w)).
    + assert (Hh : In h (docs (Animal_Shelter.animals me) (client w))).
      { apply (sort_by_In (doc_leb by_rec_num)). rewrite E. now left. }
      unfold getitem. now rewrite (Hall h Hh).
Qed.

(** X4: numbering after [create].  On a reachable server, once [create]
    has returned [True] for a document numbered [n] -- [n] at least every
    number in [animals] -- [getNextRecordNum] returns [n + 1], whichever
    collection the facade is bound to. *)
Theorem create_then_next_record_num me data n w w' :
  reachable (client w) = true ->
  Animal_Shelter.create me (Some data) w = (Ok true, w') ->
  get "rec_num" data = Some (VInt n) ->
  (forall d, In d (docs (Animal_Shelter.animals me) (client w)) ->
     get "rec_num" d = None \/ get "rec_num" d = Some VNull \/
     exists k, get "rec_num" d = Some (VInt k) /\ k <= n) ->
  Animal_Shelter.getNextRecordNum me w' = (Ok (Some (n + 1)), w').
Proof.
  intros Hr Hcreate Hn Hall.
  rewrite create_ok in Hcreate by exact Hr. injection Hcreate as <-.
  set (w' := World _ _).
  assert (Hr' : reachable (client w') = true) by exact Hr.
  assert (Hdocs : docs (Animal_Shelter.animals me) (client w') =
                  (docs (Animal_Shelter.animals me) (client w) ++ [data])%list).
  { unfold w', inserted. cbn [client]. rewrite docs_insert.
    now destruct (decide (Animal_Shelter.animals me = Animal_Shelter.animals me)). }
  rewrite getNextRecordNum_select by exact Hr'. rewrite Hdocs.
  destruct (sort_by_rec_num_head
              (docs (Animal_Shelter.animals me) (client w) ++ [data])%list n)
    as (h & rest & -> & Eh).
  - exists data. split; [| exact Hn]. apply in_app_iff. right. now left.
  - intros d Hd. apply in_app_iff in Hd as [Hd | [<- | []]]; [now apply Hall |].
    right. right. exists n. split; [exact Hn | lia].
  - unfold getitem. now rewrite Eh.
Qed.

End RecordNumbers.

Lemma getNextRecordNum_failures_witness :
  Animal_Shelter.getNextRecordNum kennel offline =
    (Raise (PyMongoError no_servers), offline) /\
  Animal_Shelter.getNextRecordNum kennel unnumbered =
    (Raise (KeyError "rec_num"), unnumbered).
Proof.
  destruct (getNextRecordNum_failures kennel offline) as [Hdown _].
  destruct (getNextRecordNum_failures kennel unnumbered) as [_ Hkey].
  split; [apply Hdown; reflexivity |].
  apply Hkey; [reflexivity | vm_compute; discriminate |].
  intros d Hd. vm_compute in Hd. destruct Hd as [<- | [<- | []]]; reflexivity.
Defined.

Lemma create_then_next_record_num_witness :
  reachable (client numbered) = true /\
  fst (Animal_Shelter.create kennel (Some (animal "Beagle" 8)) numbered) = Ok true /\
  Animal_Shelter.getNextRecordNum kennel
    (snd (Animal_Shelter.create kennel (Some (animal "Beagle" 8)) numbered)) =
  (Ok (Some 9), snd (Animal_Shelter.create kennel (Some (animal "Beagle" 8)) numbered)).
Proof.
  split; [reflexivity |]. split; [reflexivity |].
  apply (create_then_next_record_num kennel (animal "Beagle" 8) 8 numbered);
    [reflexivity | reflexivity | reflexivity |].
  intros d Hd. vm_compute in Hd. destruct Hd as [<- | [<- | [<- | []]]].
  - right. right. exists 3. split; [reflexivity | lia].
  - right. right. exists 7. split; [reflexivity | lia].
  - left. reflexivity.
Defined.

(* ===================================================================== *)
(** ** read, count and delete together *)
(* ===================================================================== *)

Section Queries.
Implicit Types (s : server) (me : Animal_Shelter.self) (w : world server).

Lemma count_query_some q : count_query (Some q) = q.
Proof. now destruct q. Qed.









(** X7: [count] counts what [read] returns.  On a reachable server that
    accepts the filter, [count] returns the length of the list [read]
    returns for the same filter without skip or limit, whatever the sort;
    an absent or empty query counts every document of the bound
    collection. *)
Theorem count_agrees_with_read me query sort w :
  reachable (client w) = true ->
  valid_query (count_query query) = true ->
  exists found,
    Animal_Shelter.read me (Some (count_query query)) None 0 0 sort w = (Ok found, w) /\
    Animal_Shelter.count me query w = (Ok (Z.of_nat (length found)), w) /\
    (count_query query = [] ->
     length found = length (docs (Animal_Shelter.coll me) (client w))).
Proof.
  intros Hr Hq. eexists. split; [now apply read_ok |].
  assert (Hlen : length (read_result (count_query query) None 0 0 sort
                           (docs (Animal_Shelter.coll me) (client w))) =
                 length (List.filter (matches (count_query query))
                           (docs (Animal_Shelter.coll me) (client w)))).
  { unfold read_result. rewrite map_project_None. cbn [Z.leb Z.compare].
    destruct sort as [[| p ps] |]; try reflexivity. apply sort_by_length. }
  split.
  - rewrite count_ok by assumption. now rewrite Hlen.
  - intros E. rewrite Hlen, E. now rewrite filter_matches_nil.
Qed.

Lemma docs_deleted ns q s ns' :
  docs ns' (deleted ns q s) =
  if decide (ns = ns')
  then List.filter (fun d => negb (matches q d)) (docs ns' s)
  else docs ns' s.
Proof. unfold deleted. now rewrite docs_alter. Qed.

Lemma filter_filter_negb {A} (f : A -> bool) l :
  List.filter f (List.filter (fun x => negb (f x)) l) = [].
Proof.
  apply filter_none. intros x Hx. apply filter_In in Hx as [_ Hx].
  now apply negb_true_iff.
Qed.

(** X8: [delete] removes what matches and says how many.  On a reachable
    server that accepts the filter, it returns the number [count] reported
    for the filter just before, the bound collection keeps the documents
    that do not match and no other, the other collections are untouched,
    and afterwards [count] for the filter is 0 and [read] finds nothing. *)
Theorem delete_spec me lookup_pair w :
  reachable (client w) = true ->
  valid_query lookup_pair = true ->
  let ds := docs (Animal_Shelter.coll me) (client w) in
  exists n w',
    Animal_Shelter.count me (Some lookup_pair) w = (Ok n, w) /\
    n = Z.of_nat (length (List.filter (matches lookup_pair) ds)) /\
    Animal_Shelter.delete me (Some lookup_pair) w = (Ok n, w') /\
    Permutation (List.filter (fun d => negb (matches lookup_pair d)) ds)
      (docs (Animal_Shelter.coll me) (client w')) /\
    (forall ns, ns <> Animal_Shelter.coll me -> docs ns (client w') = docs ns (client w)) /\
    Animal_Shelter.count me (Some lookup_pair) w' = (Ok 0, w') /\
    Animal_Shelter.read me (Some lookup_pair) None 0 0 None w' = (Ok [], w').
Proof.
  intros Hr Hq ds. do 2 eexists.
  split; [rewrite count_ok by (rewrite ?count_query_some; assumption);
          rewrite count_query_some; reflexivity |].
  split; [reflexivity |].
  split; [now apply delete_ok |].
  set (w' := World _ _).
  assert (Hr' : reachable (client w') = true) by exact Hr.
  assert (Hdocs : docs (Animal_Shelter.coll me) (client w') =
                  List.filter (fun d => negb (matches lookup_pair d)) ds).
  { unfold w'. cbn [client]. rewrite docs_deleted.
    now destruct (decide (Animal_Shelter.coll me = Animal_Shelter.coll me)). }
  split; [now rewrite Hdocs |]. split.
  { intros ns Hns. unfold w'. cbn [client]. rewrite docs_deleted.
    destruct (decide (Animal_Shelter.coll me = ns)); [congruence | reflexivity]. }
  split.
  - rewrite count_ok by (rewrite ?count_query_some; assumption).
    rewrite count_query_some, Hdocs, filter_filter_negb. reflexivity.
  - rewrite read_ok by (assumption || reflexivity).
    unfold read_result. rewrite Hdocs, filter_filter_negb. reflexivity.
Qed.

(** X9: the round trip, for a facade bound to [animals].  On a reachable
    server, once [create] has returned [True] for a document that carries
    its own [_id] in front and matches a filter, a [read] with that filter
    returns the document together with what it returned before, and
    [count] goes up by one. *)
Theorem create_read_round_trip me data query w w' :
  Animal_Shelter.collection me = "animals" ->
  reachable (client w) = true ->
  valid_query query = true ->
  matches query data = true ->
  (exists v rest, data = ("_id", v) :: rest) ->
  Animal_Shelter.create me (Some data) w = (Ok true, w') ->
  exists before after,
    Animal_Shelter.read me (Some query) None 0 0 None w = (Ok before, w) /\
    Animal_Shelter.read me (Some query) None 0 0 None w' = (Ok after, w') /\
    Permutation (data :: before) after /\
    Animal_Shelter.count me (Some query) w' = (Ok (Z.of_nat (length before) + 1), w').
Proof.
  intros Hbound Hr Hq Hm _ Hcreate.
  assert (Ecoll : Animal_Shelter.animals me = Animal_Shelter.coll me).
  { unfold Animal_Shelter.animals, Animal_Shelter.coll. now rewrite Hbound. }
  rewrite create_ok in Hcreate by exact Hr. injection Hcreate as <-.
  set (w' := World _ _).
  assert (Hr' : reachable (client w') = true) by exact Hr.
  assert (Hdocs : docs (Animal_Shelter.coll me) (client w') =
                  (docs (Animal_Shelter.coll me) (client w) ++ [data])%list).
  { unfold w', inserted. cbn [client]. rewrite docs_insert, Ecoll.
    now destruct (decide (Animal_Shelter.coll me = Animal_Shelter.coll me)). }
  assert (Hfilter : List.filter (matches query) (docs (Animal_Shelter.coll me) (client w')) =
                    (List.filter (matches query) (docs (Animal_Shelter.coll me) (client w))
                     ++ [data])%list).
  { rewrite Hdocs, List.filter_app. cbn [List.filter]. now rewrite Hm. }
  do 2 eexists. split; [now apply read_ok |].
  split; [apply read_ok; (assumption || reflexivity) |].
  unfold read_result. rewrite !map_project_None. cbn [Z.leb Z.compare]. split.
  - rewrite Hfilter. apply Permutation_cons_append.
  - rewrite count_ok by (rewrite ?count_query_some; assumption).
    rewrite count_query_some, Hfilter.
    rewrite length_app. cbn [length]. do 2 f_equal. lia.
Qed.

End Queries.

(* ===================================================================== *)
(** ** update with plain fields *)
(* ===================================================================== *)

Section PlainUpdates.
Implicit Types (s : server) (me : Animal_Shelter.self) (w : world server).

Lemma set_all_other fs : forall d k,
  ~ In k (keys fs) ->
  get k (fold_left (fun d '(k, v) => set k v d) fs d) = get k d.
Proof.
  induction fs as [| [k' v'] fs IH]; intros d k Hnot; [reflexivity |].
  simpl. rewrite IH by (intros Hin; apply Hnot; now right).
  apply get_set_ne. intros ->. apply Hnot. now left.
Qed.





Lemma plain_operation u :
  forallb (fun k => negb (startswith "$" k)) (keys u) = true ->
  Animal_Shelter.update_operation u = [("$set", VDoc u)].
Proof. intros Hplain. now rewrite update_operation_eq, Hplain. Qed.

Lemma plain_operation_valid u :
  distinct (keys u) = true -> valid_update [("$set", VDoc u)] = true.
Proof. intros Hd. unfold valid_update. simpl. now rewrite app_nil_r, Hd. Qed.

(** X10: what an update with plain fields touches.  On a reachable server
    that accepts the filter, with pairwise distinct fields in
    [update_data], all of them top-level fields other than [_id]: the bound
    collection keeps as many documents; a document that does not match is
    left as it is; a matching document keeps every field that
    [update_data] does not name and takes the value given for every field
    it names; and the number returned is at most the number of matching
    documents. *)
Theorem plain_update_frame me lookup_pair update_data w :
  reachable (client w) = true ->
  valid_query lookup_pair = true ->
  forallb (fun k => negb (startswith "$" k)) (keys update_data) = true ->
  distinct (keys update_data) = true ->
  settable [("$set", VDoc update_data)] = true ->
  let ds := docs (Animal_Shelter.coll me) (client w) in
  exists n w',
    Animal_Shelter.update me (Some lookup_pair) (Some update_data) w = (Ok n, w') /\
    0 <= n <= Z.of_nat (length (List.filter (matches lookup_pair) ds)) /\
    Forall2 (fun d d' =>
               (matches lookup_pair d = false -> d' = d) /\
               (forall k, ~ In k (keys update_data) -> get k d' = get k d) /\
               (matches lookup_pair d = true ->
                forall k v, In (k, v) update_data -> get k d' = Some v))
      ds (docs (Animal_Shelter.coll me) (client w')).
Proof.
  intros Hr Hq Hplain Hd _ ds. do 2 eexists.
  split; [apply update_ok; try assumption;
          rewrite plain_operation by exact Hplain; now apply plain_operation_valid |].
  rewrite plain_operation by exact Hplain. fold ds. split.
  - split; [lia |]. apply inj_le. unfold modified.
    induction ds as [| d ds' IH]; [simpl; lia |].
    cbn [List.filter]. destruct (matches lookup_pair d); cbn [andb].
    + destruct (negb _); cbn [length]; lia.
    + exact IH.
  - cbn [client]. rewrite docs_updated.
    destruct (decide (Animal_Shelter.coll me = Animal_Shelter.coll me)); [| congruence].
    apply Forall2_map_r. intros d _.
    destruct (matches lookup_pair d) eqn:Em; repeat split; try discriminate; try reflexivity.
    + intros k Hk. simpl. now apply set_all_other.
    + intros _ k v Hin. now apply apply_set_get.
Qed.


End PlainUpdates.

(* ===================================================================== *)
(** ** breed_counts against count *)
(* ===================================================================== *)

Section BreedTotals.
Implicit Types (s : server) (me : Animal_Shelter.self) (w : world server).










End BreedTotals.

(* ===================================================================== *)
(** ** The further properties at work *)
(* ===================================================================== *)



Lemma count_agrees_with_read_witness :
  reachable (client three) = true /\
  exists found,
    Animal_Shelter.read kennel (Some []) None 0 0 None three = (Ok found, three) /\
    Animal_Shelter.count kennel None three = (Ok (Z.of_nat (length found)), three) /\
    length found = 3%nat.
Proof.
  split; [reflexivity |].
  destruct (count_agrees_with_read kennel None None three eq_refl eq_refl)
    as (found & Hread & Hcount & Hall).
  exists found. split; [exact Hread |]. split; [exact Hcount |].
  rewrite Hall by reflexivity. reflexivity.
Defined.

Lemma delete_spec_witness :
  reachable (client three) = true /\
  valid_query [("breed", VStr "Labrador")] = true /\
  exists w',
    Animal_Shelter.delete kennel (Some [("breed", VStr "Labrador")]) three = (Ok 2, w') /\
    Permutation [animal "Poodle" 3] (docs ("aac", "dogs") (client w')) /\
    Animal_Shelter.count kennel (Some [("breed", VStr "Labrador")]) w' = (Ok 0, w').
Proof.
  split; [reflexivity |]. split; [reflexivity |].
  destruct (delete_spec kennel [("breed", VStr "Labrador")] three eq_refl eq_refl)
    as (n & w' & _ & -> & Hdelete & Hdocs & _ & Hcount & _).
  exists w'. split; [exact Hdelete |]. split; [exact Hdocs | exact Hcount].
Defined.

Lemma create_read_round_trip_witness :
  Animal_Shelter.collection shelter = "animals" /\
  reachable (client numbered) = true /\
  matches [("breed", VStr "Beagle")] tagged = true /\
  fst (Animal_Shelter.create shelter (Some tagged) numbered) = Ok true /\
  exists after,
    fst (Animal_Shelter.read shelter (Some [("breed", VStr "Beagle")]) None 0 0 None
           (snd (Animal_Shelter.create shelter (Some tagged) numbered))) = Ok after /\
    In tagged after.
Proof.
  split; [reflexivity |]. split; [reflexivity |]. split; [reflexivity |].
  split; [reflexivity |].
  destruct (create_read_round_trip shelter tagged [("breed", VStr "Beagle")] numbered
              (snd (Animal_Shelter.create shelter (Some tagged) numbered))
              eq_refl eq_refl eq_refl eq_refl)
    as (before & after & _ & Hafter & Hperm & _).
  - exists (VInt 41), [("breed", VStr "Beagle"); ("rec_num", VInt 8)]. reflexivity.
  - reflexivity.
  - exists after. split; [exact (f_equal fst Hafter) |].
    apply (Permutation_in _ Hperm). now left.
Defined.

Lemma plain_update_frame_witness :
  reachable (client three) = true /\
  distinct (keys [("age", VInt 3)]) = true /\
  settable [("$set", VDoc [("age", VInt 3)])] = true /\
  exists n w',
    Animal_Shelter.update kennel (Some [("breed", VStr "Labrador")])
      (Some [("age", VInt 3)]) three = (Ok n, w') /\
    0 <= n <= 2 /\
    length (docs ("aac", "dogs") (client w')) = 3%nat.
Proof.
  split; [reflexivity |]. split; [reflexivity |]. split; [reflexivity |].
  destruct (plain_update_frame kennel [("breed", VStr "Labrador")] [("age", VInt 3)] three
              eq_refl eq_refl eq_refl eq_refl eq_refl)
    as (n & w' & Hupdate & Hn & Hframe).
  exists n, w'. split; [exact Hupdate |]. split; [exact Hn |].
  apply Forall2_length in Hframe. symmetry. exact Hframe.
Defined.



(** X13: the empty filter is a filter, not a missing argument.  On a
    reachable server [delete({})] raises nothing: it removes every document
    of the bound collection and returns how many there were. *)
Theorem delete_everything me w :
  reachable (client w) = true ->
  exists w',
    Animal_Shelter.delete me (Some []) w =
      (Ok (Z.of_nat (length (docs (Animal_Shelter.coll me) (client w)))), w') /\
    docs (Animal_Shelter.coll me) (client w') = [].
Proof.
  intros Hr. eexists. split.
  - rewrite delete_ok by (exact Hr || reflexivity). now rewrite filter_matches_nil.
  - cbn [client]. rewrite docs_deleted.
    destruct (decide (Animal_Shelter.coll me = Animal_Shelter.coll me)); [| congruence].
    apply filter_none. intros d _. reflexivity.
Qed.

Lemma delete_everything_witness :
  reachable (client three) = true /\
  exists w',
    Animal_Shelter.delete kennel (Some []) three = (Ok 3, w') /\
    docs ("aac", "dogs") (client w') = [].
Proof.
  split; [reflexivity |]. apply (delete_everything kennel three). reflexivity.
Defined.
